(** * Veterinary dose calculator: the calculation core of [dose_calculator.py]

    The three pure calculation helpers and the catalog loader are embedded
    here as Rocq functions and their specification is checked against them.

    Modelling choices.
    - Numbers.  The helpers receive Python numbers and only use [*], [/],
      [-], [==] and the comparisons.  They are read twice.  Over the exact
      rationals [Q] the guards, the branches and the formulas are fixed;
      [x == 0] is [Qeq_bool x 0], so every representation of zero is caught,
      as [0], [0.0] and [-0.0] all are in Python.  Over binary64, the format
      of Python's [float], module [Binary64] gives the infusion and the rate
      helper with their rounding, infinities and NaN; every property that
      depends on the arithmetic is stated there.
    - Strings are [string]; [str.lower] maps the letters [A]..[Z] to
      [a]..[z] and leaves every other character alone, and [x in s] is the
      substring test.
    - [raise ValueError(msg)] is the result [Raise (ValueError msg)]; a
      returned tuple is [Return (a, b, c)]; [None] is [None].
    - The interactive functions [get_positive_float_input],
      [save_medications] and [add_medication] run in a [world]: the lines
      still to be typed, what was written to the console, and the files.
      [float], [json.load], [json.dump] and [str.strip] belong to Python's
      library and are parameters.  A write goes through, or is refused
      when the file is opened, before it is touched, or breaks after the
      file was opened and emptied, leaving the start of the text behind.
      The functions that format numbers for
      display ([view_medications], the three [calculate_...] menus and
      [main_menu]) are not embedded. *)

From Stdlib Require Import ZArith QArith Qfield Lqa Lia Bool List Ascii String.
From Stdlib Require Import Floats.
Import ListNotations.

Local Open Scope string_scope.
Local Open Scope Q_scope.

(** ** Python primitives used by the module *)

Module Py.

(** The exceptions that occur in the module, by class.  [JSONDecodeError]
    is what [json.load] raises on a malformed document and [IOError]
    (an alias of [OSError]) what [open] and [read] raise; [OtherError]
    stands for any class that is neither of them nor a [ValueError]
    raised by the calculation helpers. *)
Inductive exn : Type :=
| ValueError (msg : string)
| IOError
| JSONDecodeError
| OtherError (name : string).

Inductive result (A : Type) : Type :=
| Return (a : A)
| Raise (e : exn).

Arguments Return {A} a.
Arguments Raise {A} e.

(** [try: body  except classes: handler] *)
Definition try_except {A : Type} (body : result A)
           (classes : exn -> bool) (handler : result A) : result A :=
  match body with
  | Return a => Return a
  | Raise e => if classes e then handler else Raise e
  end.

(** Sequencing of a computation that may raise. *)
Definition bind {A B : Type} (r : result A) (k : A -> result B) : result B :=
  match r with
  | Return a => k a
  | Raise e => Raise e
  end.

(** [c.lower()] on one character. *)
Definition ascii_lower (c : ascii) : ascii :=
  let n := nat_of_ascii c in
  if Nat.leb 65 n && Nat.leb n 90 then ascii_of_nat (n + 32) else c.

(** [s.lower()] *)
Fixpoint lower (s : string) : string :=
  match s with
  | EmptyString => EmptyString
  | String c s' => String (ascii_lower c) (lower s')
  end.

(** [sub in s]: [sub] occurs in [s] as a contiguous substring. *)
Fixpoint str_in (sub s : string) : bool :=
  String.prefix sub s ||
  match s with
  | EmptyString => false
  | String _ s' => str_in sub s'
  end.

(** [a > b] and [a < b] on numbers. *)
Definition Qgt_bool (a b : Q) : bool := negb (Qle_bool a b).
Definition Qlt_bool (a b : Q) : bool := negb (Qle_bool b a).

End Py.

Import Py.

(** ** The calculation helpers *)

(** [perform_dose_per_weight_calculation]: the result tuple is
    [(total_mg_needed, quantity_to_administer, admin_unit_str)]. *)
Definition perform_dose_per_weight_calculation
    (weight_kg dose_mg_per_kg concentration_value : Q)
    (concentration_unit_str : string) : result (Q * option Q * string) :=
  if Qeq_bool concentration_value 0 then
    Raise (ValueError "Concentration value cannot be zero.")
  else
    let total_mg_needed := weight_kg * dose_mg_per_kg in
    let admin_unit_str := "unrecognized_unit" in
    let quantity_to_administer : option Q := None in
    let unit_lower := lower concentration_unit_str in
    let '(quantity_to_administer, admin_unit_str) :=
      if str_in "/ml" unit_lower then
        (Some (total_mg_needed / concentration_value), "mL")
      else if str_in "/tablet" unit_lower || str_in "mg/tab" unit_lower then
        (Some (total_mg_needed / concentration_value), "tablets")
      else
        (quantity_to_administer, admin_unit_str) in
    Return (total_mg_needed, quantity_to_administer, admin_unit_str).

(** [perform_infusion_preparation_calculation]: the result tuple is
    [(drug_volume_ml, diluent_volume_ml, final_concentration_mg_ml)]. *)
Definition perform_infusion_preparation_calculation
    (total_dose_mg drug_concentration_value_mg_ml
     total_final_infusion_volume_ml : Q) : result (Q * Q * Q) :=
  if Qeq_bool drug_concentration_value_mg_ml 0 then
    Raise (ValueError "Drug concentration cannot be zero.")
  else if Qeq_bool total_final_infusion_volume_ml 0 then
    Raise (ValueError "Total final infusion volume cannot be zero.")
  else
    let volume_of_drug_to_draw_mL :=
      total_dose_mg / drug_concentration_value_mg_ml in
    if Qgt_bool volume_of_drug_to_draw_mL total_final_infusion_volume_ml then
      Raise (ValueError
               "Volume of drug to draw exceeds the total final infusion volume.")
    else if Qlt_bool volume_of_drug_to_draw_mL 0 then
      Raise (ValueError "Calculated volume of drug to draw is negative.")
    else
      let volume_of_diluent_mL :=
        total_final_infusion_volume_ml - volume_of_drug_to_draw_mL in
      let final_infusion_concentration_mg_per_mL :=
        total_dose_mg / total_final_infusion_volume_ml in
      Return (volume_of_drug_to_draw_mL, volume_of_diluent_mL,
              final_infusion_concentration_mg_per_mL).

(** [perform_rate_duration_calculation]: the result tuple is
    [(calculated_rate_ml_hr, calculated_duration_hr, drug_delivery_rate_mg_hr)]. *)
Definition perform_rate_duration_calculation
    (total_volume_ml total_drug_mg_in_infusion value : Q) (mode : string)
  : result (Q * Q * Q) :=
  if String.eqb mode "rate_from_duration" then
    let duration_hours := value in
    if Qeq_bool duration_hours 0 then
      Raise (ValueError "Duration cannot be zero.")
    else
      let infusion_rate_mL_per_hour := total_volume_ml / duration_hours in
      let drug_delivery_rate_mg_per_hour :=
        total_drug_mg_in_infusion / duration_hours in
      Return (infusion_rate_mL_per_hour, duration_hours,
              drug_delivery_rate_mg_per_hour)
  else if String.eqb mode "duration_from_rate" then
    let infusion_rate_mL_per_hour := value in
    if Qeq_bool infusion_rate_mL_per_hour 0 then
      Raise (ValueError "Infusion rate cannot be zero.")
    else if Qeq_bool total_volume_ml 0 then
      Raise (ValueError
        "Total volume cannot be zero for drug concentration calculation in this mode.")
    else
      let duration_hours := total_volume_ml / infusion_rate_mL_per_hour in
      let drug_concentration_mg_per_mL :=
        total_drug_mg_in_infusion / total_volume_ml in
      let drug_delivery_rate_mg_per_hour :=
        infusion_rate_mL_per_hour * drug_concentration_mg_per_mL in
      Return (infusion_rate_mL_per_hour, duration_hours,
              drug_delivery_rate_mg_per_hour)
  else
    Raise (ValueError ("Invalid mode: " ++ mode)).

(** ** The catalog loader

    [load_medications] talks to the file system and to the [json] library.
    Both are outside the repository, so the loader is embedded over what they
    answer: [path_exists] is [os.path.exists], [open_read] is [open(path, 'r')]
    and gives the stored content or raises, and [json_load] is [json.load] on
    that content, giving the decoded Python value or raising. *)

#[warnings="-register-all"]
Inductive pyvalue : Type :=
| PyNone
| PyBool (b : bool)
| PyInt (z : Z)
| PyFloat (q : Q)
| PyStr (s : string)
| PyList (items : list pyvalue)
| PyDict (entries : list (string * pyvalue)).

Record filesystem : Type := {
  path_exists : string -> bool;
  open_read : string -> result string
}.

(** A medication object is a dictionary; a catalog is a list of them. *)
Definition is_dict (v : pyvalue) : bool :=
  match v with
  | PyDict _ => true
  | _ => false
  end.

Definition is_record_list (v : pyvalue) : bool :=
  match v with
  | PyList items => forallb is_dict items
  | _ => false
  end.

(** The classes named by [except (IOError, json.JSONDecodeError)]. *)
Definition load_handled (e : exn) : bool :=
  match e with
  | IOError | JSONDecodeError => true
  | ValueError _ | OtherError _ => false
  end.

Section Catalog.

Variable json_load : string -> result pyvalue.

Definition load_medications (fs : filesystem) (filepath : string)
  : result pyvalue :=
  if negb (path_exists fs filepath) then
    Return (PyList [])
  else
    try_except
      (bind (open_read fs filepath) (fun f =>
       bind (json_load f) (fun medications =>
       Return medications)))
      load_handled
      (Return (PyList [])).

End Catalog.

(** A file system holding exactly one readable file. *)
Definition single_file (name content : string) : filesystem :=
  {| path_exists := fun p => String.eqb p name;
     open_read := fun p =>
       if String.eqb p name then Return content else Raise IOError |}.

(** A decoder that knows the one document used below: like [json.load], it
    decodes the text [42] to the integer 42; it rejects every other text. *)
Definition decode_only_42 (text : string) : result pyvalue :=
  if String.eqb text "42" then Return (PyInt 42) else Raise JSONDecodeError.

(** ** What the specification says, as predicates *)

(** [sub] occurs in [s]. *)
Definition occurs (sub s : string) : Prop :=
  exists p q, s = p ++ sub ++ q.

(** [s] contains [sub] up to the case of its letters: some contiguous piece
    of [s] lower-cases to [sub]. *)
Definition contains_ignoring_case (sub s : string) : Prop :=
  exists p m q, s = p ++ m ++ q /\ lower m = sub.

(** The unit carries none of the markers of a liquid or a solid. *)
Definition unrecognized (u : string) : Prop :=
  ~ contains_ignoring_case "/ml" u /\
  ~ contains_ignoring_case "/tablet" u /\
  ~ contains_ignoring_case "mg/tab" u.

(** The messages of the [ValueError]s. *)
Definition msg_zero_concentration : string :=
  "Concentration value cannot be zero.".
Definition msg_zero_drug_concentration : string :=
  "Drug concentration cannot be zero.".
Definition msg_zero_final_volume : string :=
  "Total final infusion volume cannot be zero.".
Definition msg_exceeds : string :=
  "Volume of drug to draw exceeds the total final infusion volume.".
Definition msg_negative : string :=
  "Calculated volume of drug to draw is negative.".
Definition msg_zero_duration : string := "Duration cannot be zero.".
Definition msg_zero_rate : string := "Infusion rate cannot be zero.".
Definition msg_zero_volume : string :=
  "Total volume cannot be zero for drug concentration calculation in this mode.".

(** The unrecognized-unit property read over every concentration value. *)
Definition unrecognized_yields_null (w d c : Q) (u : string) : Prop :=
  unrecognized u ->
  perform_dose_per_weight_calculation w d c u
  = Return (w * d, None, "unrecognized_unit").

(** ** The arithmetic of the machine

    Python's [float] is the binary64 format, and so is Rocq's primitive
    [float]: [*], [/] and [-] round to nearest, [==], [<] and [>] are the
    comparisons of the standard (false on NaN, and [0.0 == -0.0]).  Here the
    infusion and the rate helpers are read over it, statement by statement
    as above.  Every division below stands behind the guard on its divisor,
    so Python's [ZeroDivisionError] cannot occur. *)

Module Binary64.

Definition perform_infusion_preparation_calculation
    (total_dose_mg drug_concentration_value_mg_ml
     total_final_infusion_volume_ml : float) : result (float * float * float) :=
  if PrimFloat.eqb drug_concentration_value_mg_ml 0 then
    Raise (ValueError msg_zero_drug_concentration)
  else if PrimFloat.eqb total_final_infusion_volume_ml 0 then
    Raise (ValueError msg_zero_final_volume)
  else
    let volume_of_drug_to_draw_mL :=
      (total_dose_mg / drug_concentration_value_mg_ml)%float in
    if PrimFloat.ltb total_final_infusion_volume_ml volume_of_drug_to_draw_mL
    then Raise (ValueError msg_exceeds)
    else if PrimFloat.ltb volume_of_drug_to_draw_mL 0 then
      Raise (ValueError msg_negative)
    else
      let volume_of_diluent_mL :=
        (total_final_infusion_volume_ml - volume_of_drug_to_draw_mL)%float in
      let final_infusion_concentration_mg_per_mL :=
        (total_dose_mg / total_final_infusion_volume_ml)%float in
      Return (volume_of_drug_to_draw_mL, volume_of_diluent_mL,
              final_infusion_concentration_mg_per_mL).

Definition perform_rate_duration_calculation
    (total_volume_ml total_drug_mg_in_infusion value : float) (mode : string)
  : result (float * float * float) :=
  if String.eqb mode "rate_from_duration" then
    let duration_hours := value in
    if PrimFloat.eqb duration_hours 0 then
      Raise (ValueError msg_zero_duration)
    else
      let infusion_rate_mL_per_hour :=
        (total_volume_ml / duration_hours)%float in
      let drug_delivery_rate_mg_per_hour :=
        (total_drug_mg_in_infusion / duration_hours)%float in
      Return (infusion_rate_mL_per_hour, duration_hours,
              drug_delivery_rate_mg_per_hour)
  else if String.eqb mode "duration_from_rate" then
    let infusion_rate_mL_per_hour := value in
    if PrimFloat.eqb infusion_rate_mL_per_hour 0 then
      Raise (ValueError msg_zero_rate)
    else if PrimFloat.eqb total_volume_ml 0 then
      Raise (ValueError msg_zero_volume)
    else
      let duration_hours :=
        (total_volume_ml / infusion_rate_mL_per_hour)%float in
      let drug_concentration_mg_per_mL :=
        (total_drug_mg_in_infusion / total_volume_ml)%float in
      let drug_delivery_rate_mg_per_hour :=
        (infusion_rate_mL_per_hour * drug_concentration_mg_per_mL)%float in
      Return (infusion_rate_mL_per_hour, duration_hours,
              drug_delivery_rate_mg_per_hour)
  else
    Raise (ValueError ("Invalid mode: " ++ mode)).

(** The dose and the concentration have opposite signs. *)
Definition opposite_signs (d c : float) : Prop :=
  (PrimFloat.ltb d 0 = true /\ PrimFloat.ltb 0 c = true) \/
  (PrimFloat.ltb 0 d = true /\ PrimFloat.ltb c 0 = true).

End Binary64.

(** A value of the binary64 specification is zero or finite. *)
Definition finite_or_zero (r : spec_float) : Prop :=
  match r with
  | S754_zero _ | S754_finite _ _ _ => True
  | S754_infinity _ | S754_nan => False
  end.

(** A value of the binary64 specification has the sign [s], or is not a
    number. *)
Definition sign_or_nan (s : bool) (r : spec_float) : Prop :=
  match r with
  | S754_zero s' | S754_infinity s' | S754_finite s' _ _ => s' = s
  | S754_nan => True
  end.

(** The value of a number in units of [2 ^ -1074], the smallest positive
    binary64 number: every finite binary64 number is a whole number of
    them, so sums and differences of values are exact in these units.  An
    infinity and NaN have no value and count as zero. *)
Definition SFunits (x : spec_float) : Z :=
  match x with
  | S754_finite s m e => cond_Zopp s (Zpos m * 2 ^ (e + 1074))
  | _ => 0%Z
  end.

Definition units (x : float) : Z := SFunits (Prim2SF x).

(** The record [mrs] holds the quotient of [M] by [H], where [H] is a power
    of two, or the divisor of a division times a power of two: its mantissa
    is the quotient, and its two bits remember whether the remainder
    reaches half of [H], and whether it is strictly between zero and a half
    or between a half and one. *)
Definition shifted (M H : Z) (mrs : shr_record) : Prop :=
  (0 <= shr_m mrs)%Z /\
  exists rem : Z,
    (M = shr_m mrs * H + rem)%Z /\ (0 <= rem < H)%Z /\
    (shr_r mrs = true <-> (H <= 2 * rem)%Z) /\
    (shr_s mrs = true <-> (2 * rem)%Z <> 0%Z /\ (2 * rem)%Z <> H).

(** ** The console and the store: the interactive functions

    [input] and [print] work on a console and [open(path, 'w')] on the
    file system.  A [world] holds the lines the user will still type, what
    was written so far, the files, and for each path how writing it goes:
    whether a write goes through, and if it does not, where it breaks.  A
    function that talks to them is a function from the world to its result
    and the world it leaves; an exception leaves the world as it was when
    it was raised. *)

Inductive output : Type :=
| Printed (line : string)
| Prompted (prompt : string).

(** How a write that does not go through ends.  Either [open(path, 'w')]
    itself raises [IOError] and the file is untouched; or the file was
    opened, which empties it, and the writing breaks with an exception
    after some characters reached the file: an [OSError] of the file (a
    full disk), which is [IOError], or an exception [json.dump] raises
    part-way, as [RecursionError] on a deeply nested document. *)
Inductive write_failure_mode : Type :=
| OpenRefused
| Interrupted (kept : nat) (e : exn).

Record world : Type := {
  stdin : list string;
  stdout : list output;
  files : filesystem;
  write_allowed : string -> bool;
  write_failure : string -> write_failure_mode
}.

Definition io (A : Type) : Type := world -> result A * world.

Definition ret {A : Type} (a : A) : io A :=
  fun w => (Return a, w).

Definition io_bind {A B : Type} (m : io A) (k : A -> io B) : io B :=
  fun w =>
    match m w with
    | (Return a, w') => k a w'
    | (Raise e, w') => (Raise e, w')
    end.

Notation "x <- m ;; k" := (io_bind m (fun x => k))
  (at level 61, m at next level, right associativity).
Notation "m ;; k" := (io_bind m (fun _ => k))
  (at level 61, right associativity).

(** A raised or returned pure result, inside [io]. *)
Definition lift {A : Type} (r : result A) : io A :=
  fun w => (r, w).

(** [try: m  except classes: handler] *)
Definition io_try {A : Type} (m : io A) (classes : exn -> bool)
           (handler : io A) : io A :=
  fun w =>
    match m w with
    | (Return a, w') => (Return a, w')
    | (Raise e, w') => if classes e then handler w' else (Raise e, w')
    end.

Definition write_out (o : output) (w : world) : world :=
  {| stdin := stdin w; stdout := stdout w ++ [o];
     files := files w; write_allowed := write_allowed w;
     write_failure := write_failure w |}.

(** [print(line)] *)
Definition print (line : string) : io unit :=
  fun w => (Return tt, write_out (Printed line) w).

Definition EOFError : exn := OtherError "EOFError".
Definition AttributeError : exn := OtherError "AttributeError".

(** [input(prompt)]: writes the prompt, then reads one line; at the end of
    the input it raises [EOFError]. *)
Definition input (prompt : string) : io string :=
  fun w =>
    let w' := write_out (Prompted prompt) w in
    match stdin w' with
    | [] => (Raise EOFError, w')
    | line :: rest =>
        (Return line,
         {| stdin := rest; stdout := stdout w';
            files := files w'; write_allowed := write_allowed w';
            write_failure := write_failure w' |})
    end.

(** The file system after [content] was written to [path]. *)
Definition write_file (fs : filesystem) (path content : string) : filesystem :=
  {| path_exists := fun p => if String.eqb p path then true else path_exists fs p;
     open_read := fun p =>
       if String.eqb p path then Return content else open_read fs p |}.

(** [with open(path, 'w') as f: json.dump(v, f, indent=4)], where
    [content] is the text [json.dump] writes for [v].  When the write goes
    through, the file holds [content] afterwards.  When it does not,
    [write_failure] says how: the open is refused and nothing changes, or
    the file is left with the first [kept] characters of [content] and the
    exception of the interruption is raised. *)
Definition write_text (path content : string) : io unit :=
  fun w =>
    if write_allowed w path then
      (Return tt,
       {| stdin := stdin w; stdout := stdout w;
          files := write_file (files w) path content;
          write_allowed := write_allowed w;
          write_failure := write_failure w |})
    else
      match write_failure w path with
      | OpenRefused => (Raise IOError, w)
      | Interrupted kept e =>
          (Raise e,
           {| stdin := stdin w; stdout := stdout w;
              files := write_file (files w) path (substring 0 kept content);
              write_allowed := write_allowed w;
              write_failure := write_failure w |})
      end.

(** White space in the ASCII range, as [str.isspace] has it: tab, line
    feed, vertical tab, form feed, carriage return, the four separators
    [0x1c]..[0x1f] and the space. *)
Definition is_space (c : ascii) : bool :=
  let n := nat_of_ascii c in
  (Nat.leb 9 n && Nat.leb n 13) || (Nat.leb 28 n && Nat.leb n 32).

Fixpoint lstrip (s : string) : string :=
  match s with
  | EmptyString => EmptyString
  | String c s' => if is_space c then lstrip s' else s
  end.

Fixpoint rstrip (s : string) : string :=
  match s with
  | EmptyString => EmptyString
  | String c s' =>
      let r := rstrip s' in
      if is_space c && String.eqb r EmptyString then EmptyString
      else String c r
  end.

(** [s.strip()] for a string [s] of ASCII characters.  [str.strip] itself
    also removes the white space outside ASCII; the interactive functions
    below take it as a parameter, and this function only serves the
    examples, whose lines are ASCII. *)
Definition strip_ascii (s : string) : string := rstrip (lstrip s).

Definition nl : string := String (ascii_of_nat 10) EmptyString.

Definition default_filepath : string := "medications.json".

(** The classes named by [except ValueError] and [except IOError]. *)
Definition is_IOError (e : exn) : bool :=
  match e with
  | IOError => true
  | _ => false
  end.

(** The dictionary [add_medication] builds. *)
Definition new_medication (commercial_name presentation : string)
           (concentration_value : Q) (concentration_unit : string) : pyvalue :=
  PyDict [("commercial_name", PyStr commercial_name);
          ("presentation", PyStr presentation);
          ("concentration_value", PyFloat concentration_value);
          ("concentration_unit", PyStr concentration_unit)].

(** [medications.append(x)]: only a list has the method. *)
Definition py_append (medications x : pyvalue) : result pyvalue :=
  match medications with
  | PyList items => Return (PyList (items ++ [x]))
  | _ => Raise AttributeError
  end.

Section Interactive.

(** [float(s)] on a line of input, [None] when it raises [ValueError];
    [json.load] as before; the text [json.dump(v, f, indent=4)] writes
    when nothing interrupts it; and [str.strip]. *)
Variable float_of_string : string -> option Q.
Variable json_load : string -> result pyvalue.
Variable json_dump : pyvalue -> string.
Variable strip : string -> string.

(** The [while True] loop of [get_positive_float_input], by recursion on
    the lines still to be read: each round writes the prompt and takes one
    line; [out] collects what the rounds write. *)
Fixpoint get_positive_float_input_from (prompt_message : string)
         (lines : list string) (out : list output)
  : result Q * list string * list output :=
  match lines with
  | [] => (Raise EOFError, [], (out ++ [Prompted prompt_message])%list)
  | line :: rest =>
      let out := (out ++ [Prompted prompt_message])%list in
      match float_of_string line with
      | Some value =>
          if Qgt_bool value 0 then (Return value, rest, out)
          else
            get_positive_float_input_from prompt_message rest
              (out ++ [Printed "Value must be positive. Please try again."])%list
      | None =>
          get_positive_float_input_from prompt_message rest
            (out ++ [Printed "Invalid input. Please enter a number."])%list
      end
  end.

Definition get_positive_float_input (prompt_message : string) : io Q :=
  fun w =>
    let '(r, lines, out) :=
      get_positive_float_input_from prompt_message (stdin w) (stdout w) in
    (r, {| stdin := lines; stdout := out;
           files := files w; write_allowed := write_allowed w;
           write_failure := write_failure w |}).

(** A line the loop does not accept, and what a round on such a line
    writes: the prompt and one of the two messages. *)
Definition rejected (line : string) : bool :=
  match float_of_string line with
  | Some value => negb (Qgt_bool value 0)
  | None => true
  end.

Definition rejection (prompt_message line : string) : list output :=
  [Prompted prompt_message;
   Printed (match float_of_string line with
            | Some _ => "Value must be positive. Please try again."
            | None => "Invalid input. Please enter a number."
            end)].

(** [load_medications(filepath)], in a world. *)
Definition load_medications_io (filepath : string) : io pyvalue :=
  fun w => (load_medications json_load (files w) filepath, w).

Definition save_medications (medications : pyvalue) (filepath : string)
  : io bool :=
  io_try
    (write_text filepath (json_dump medications) ;;
     ret true)
    is_IOError
    (ret false).

Definition add_medication : io unit :=
  medications <- load_medications_io default_filepath ;;
  print (nl ++ "Adding a new medication:") ;;
  raw_name <- input "Enter Commercial Name: " ;;
  let commercial_name := strip raw_name in
  raw_presentation <-
    input "Enter Presentation (e.g., '100 mg / 5 mL vial', '50 mg tablet'): " ;;
  let presentation := strip raw_presentation in
  concentration_value <-
    get_positive_float_input "Enter Concentration Value (e.g., 20.0, 50.0): " ;;
  raw_unit <- input "Enter Concentration Unit (e.g., 'mg/mL', 'mg/tablet'): " ;;
  let concentration_unit := strip raw_unit in
  if String.eqb commercial_name "" then
    print "Error: Commercial Name cannot be empty." ;;
    input (nl ++ "Press Enter to return to the main menu...") ;;
    ret tt
  else if String.eqb concentration_unit "" then
    print "Error: Concentration Unit cannot be empty." ;;
    input (nl ++ "Press Enter to return to the main menu...") ;;
    ret tt
  else
    medications <-
      lift (py_append medications
              (new_medication commercial_name presentation
                              concentration_value concentration_unit)) ;;
    saved <- save_medications medications default_filepath ;;
    (if saved then
       print ("Medication '" ++ commercial_name ++ "' added successfully.")
     else
       print ("Error: Could not save medication '" ++ commercial_name ++ "'.")) ;;
    input (nl ++ "Press Enter to return to the main menu...") ;;
    ret tt.

(** What the console shows while [add_medication] asks for the four
    fields, when the lines [skipped] are rejected as concentration value. *)
Definition press_enter : string :=
  nl ++ "Press Enter to return to the main menu...".

Definition entry_transcript (skipped : list string) : list output :=
  ([Printed (nl ++ "Adding a new medication:");
    Prompted "Enter Commercial Name: ";
    Prompted
      "Enter Presentation (e.g., '100 mg / 5 mL vial', '50 mg tablet'): "]
   ++ flat_map (rejection "Enter Concentration Value (e.g., 20.0, 50.0): ")
               skipped
   ++ [Prompted "Enter Concentration Value (e.g., 20.0, 50.0): ";
       Prompted "Enter Concentration Unit (e.g., 'mg/mL', 'mg/tablet'): "])%list.

(** The user types a name, a presentation, some rejected lines, a line that
    reads as the positive number [v], a unit, and Enter. *)
Definition session (w : world) (name presentation : string)
    (skipped : list string) (value_line unit_line enter : string)
    (rest : list string) (v : Q) : Prop :=
  stdin w = (name :: presentation ::
             skipped ++ value_line :: unit_line :: enter :: rest)%list /\
  forallb rejected skipped = true /\
  float_of_string value_line = Some v /\
  0 < v.

End Interactive.

(** A console session and a parser for the examples: the parser knows the
    three lines used below, as [float] does, and rejects every other line. *)
Definition parse_example (s : string) : option Q :=
  if String.eqb s "20.0" then Some 20
  else if String.eqb s "-3" then Some (-3)
  else if String.eqb s "0" then Some 0
  else None.


(** Where the dumped text does not matter, any serialiser will do. *)
Definition dump_placeholder (v : pyvalue) : string := "(the dumped catalog)".

(** What a user types to add a medication: a name, a presentation, a line
    that is not a number, the concentration, the unit, Enter; the last line
    is left for the menu. *)
Definition example_entry : list string :=
  ["Ketamine "; "100 mg/mL vial"; "abc"; "20.0"; " mg/mL"; ""; "0"].

Definition console (lines : list string) (fs : filesystem)
           (allowed : bool) : world :=
  {| stdin := lines; stdout := []; files := fs;
     write_allowed := fun _ => allowed;
     write_failure := fun _ => OpenRefused |}.

(** The same console on a disk where every write breaks after [kept]
    characters with the exception [e]. *)
Definition console_breaking (lines : list string) (fs : filesystem)
           (kept : nat) (e : exn) : world :=
  {| stdin := lines; stdout := []; files := fs;
     write_allowed := fun _ => false;
     write_failure := fun _ => Interrupted kept e |}.

Definition RecursionError : exn := OtherError "RecursionError".

Definition empty_disk : filesystem :=
  {| path_exists := fun _ => false; open_read := fun _ => Raise IOError |}.

(** ** The repository's unit tests, replayed on the embedding *)

Example test_dpw_liquid_medication :
  perform_dose_per_weight_calculation 10 2 5 "mg/mL"
  = Return (10 * 2, Some (10 * 2 / 5), "mL").
Proof. reflexivity. Qed.

Example test_dpw_solid_medication :
  perform_dose_per_weight_calculation 20 1 10 "mg/tablet"
  = Return (20 * 1, Some (20 * 1 / 10), "tablets").
Proof. reflexivity. Qed.

Example test_dpw_solid_medication_mg_tab_variant :
  perform_dose_per_weight_calculation 15 2 30 "mg/tab"
  = Return (15 * 2, Some (15 * 2 / 30), "tablets").
Proof. reflexivity. Qed.

Example test_dpw_unrecognized_unit :
  perform_dose_per_weight_calculation 10 1 10 "mg/capsule"
  = Return (10 * 1, None, "unrecognized_unit").
Proof. reflexivity. Qed.

Example test_dpw_zero_concentration :
  perform_dose_per_weight_calculation 10 2 0 "mg/mL"
  = Raise (ValueError msg_zero_concentration).
Proof. reflexivity. Qed.

Example test_ip_typical_values :
  perform_infusion_preparation_calculation 100 20 500
  = Return (100 / 20, 500 - 100 / 20, 100 / 500).
Proof. reflexivity. Qed.

Example test_ip_drug_volume_equals_final_volume :
  perform_infusion_preparation_calculation 100 10 10
  = Return (100 / 10, 10 - 100 / 10, 100 / 10).
Proof. reflexivity. Qed.

Example test_ip_zero_drug_concentration :
  perform_infusion_preparation_calculation 100 0 500
  = Raise (ValueError msg_zero_drug_concentration).
Proof. reflexivity. Qed.

Example test_ip_zero_final_volume :
  perform_infusion_preparation_calculation 100 20 0
  = Raise (ValueError msg_zero_final_volume).
Proof. reflexivity. Qed.

Example test_ip_drug_volume_exceeds_final_volume :
  perform_infusion_preparation_calculation 100 10 5
  = Raise (ValueError msg_exceeds).
Proof. reflexivity. Qed.

Example test_rd_rate_from_duration :
  perform_rate_duration_calculation 500 100 5 "rate_from_duration"
  = Return (500 / 5, 5, 100 / 5).
Proof. reflexivity. Qed.

Example test_rd_duration_from_rate :
  perform_rate_duration_calculation 500 100 100 "duration_from_rate"
  = Return (100, 500 / 100, 100 * (100 / 500)).
Proof. reflexivity. Qed.

Example test_rd_zero_duration :
  perform_rate_duration_calculation 500 100 0 "rate_from_duration"
  = Raise (ValueError msg_zero_duration).
Proof. reflexivity. Qed.

Example test_rd_zero_rate :
  perform_rate_duration_calculation 500 100 0 "duration_from_rate"
  = Raise (ValueError msg_zero_rate).
Proof. reflexivity. Qed.

Example test_rd_zero_total_volume_in_duration_from_rate :
  perform_rate_duration_calculation 0 100 50 "duration_from_rate"
  = Raise (ValueError msg_zero_volume).
Proof. reflexivity. Qed.

Example test_rd_invalid_mode :
  perform_rate_duration_calculation 500 100 5 "unknown_mode"
  = Raise (ValueError "Invalid mode: unknown_mode").
Proof. reflexivity. Qed.

(** ** The tests on numbers, as propositions *)

Lemma is_zero_iff (x : Q) : Qeq_bool x 0 = true <-> x == 0.
Proof. apply Qeq_bool_iff. Qed.

Lemma not_zero_iff (x : Q) : Qeq_bool x 0 = false <-> ~ x == 0.
Proof.
  rewrite <- is_zero_iff. destruct (Qeq_bool x 0); intuition congruence.
Qed.

Lemma gt_iff (a b : Q) : Qgt_bool a b = true <-> b < a.
Proof.
  unfold Qgt_bool. rewrite negb_true_iff, <- not_true_iff_false, Qle_bool_iff.
  split; [apply Qnot_le_lt | apply Qlt_not_le].
Qed.

Lemma gt_false_iff (a b : Q) : Qgt_bool a b = false <-> a <= b.
Proof. unfold Qgt_bool. now rewrite negb_false_iff, Qle_bool_iff. Qed.

Lemma lt_iff (a b : Q) : Qlt_bool a b = true <-> a < b.
Proof. unfold Qlt_bool. apply (gt_iff b a). Qed.

Lemma lt_false_iff (a b : Q) : Qlt_bool a b = false <-> b <= a.
Proof. unfold Qlt_bool. apply (gt_false_iff b a). Qed.

(** Turn every test that sits in the context into its proposition. *)
Ltac reflect_tests :=
  repeat match goal with
  | H : Qeq_bool _ 0 = true |- _ => apply is_zero_iff in H
  | H : Qeq_bool _ 0 = false |- _ => apply not_zero_iff in H
  | H : Qgt_bool _ _ = true |- _ => apply gt_iff in H
  | H : Qgt_bool _ _ = false |- _ => apply gt_false_iff in H
  | H : Qlt_bool _ _ = true |- _ => apply lt_iff in H
  | H : Qlt_bool _ _ = false |- _ => apply lt_false_iff in H
  end.

(** Division undone by multiplication, the one fact about [/] that the
    order arguments below need. *)
Lemma div_times (x y : Q) : ~ y == 0 -> y * (x / y) == x.
Proof. intros Hy. now apply Qmult_div_r. Qed.

Lemma div_zero_inv (x y : Q) : ~ y == 0 -> x / y == 0 -> x == 0.
Proof.
  intros Hy Hq. rewrite <- (div_times x y Hy), Hq. ring.
Qed.

(** ** Infusion preparation, by cases on its four guards *)

(** What the function does, guard by guard. *)
Lemma infusion_cases (d c v : Q) :
  (c == 0 /\
   perform_infusion_preparation_calculation d c v
   = Raise (ValueError msg_zero_drug_concentration)) \/
  (~ c == 0 /\ v == 0 /\
   perform_infusion_preparation_calculation d c v
   = Raise (ValueError msg_zero_final_volume)) \/
  (~ c == 0 /\ ~ v == 0 /\ v < d / c /\
   perform_infusion_preparation_calculation d c v
   = Raise (ValueError msg_exceeds)) \/
  (~ c == 0 /\ ~ v == 0 /\ d / c <= v /\ d / c < 0 /\
   perform_infusion_preparation_calculation d c v
   = Raise (ValueError msg_negative)) \/
  (~ c == 0 /\ ~ v == 0 /\ d / c <= v /\ 0 <= d / c /\
   perform_infusion_preparation_calculation d c v
   = Return (d / c, v - d / c, d / v)).
Proof.
  unfold perform_infusion_preparation_calculation.
  destruct (Qeq_bool c 0) eqn:Hc; [left; reflect_tests; auto|right].
  destruct (Qeq_bool v 0) eqn:Hv; [left; reflect_tests; auto|right].
  destruct (Qgt_bool (d / c) v) eqn:Hgt; [left; reflect_tests; auto|right].
  destruct (Qlt_bool (d / c) 0) eqn:Hlt; [left|right]; reflect_tests; auto.
Qed.

(** A returned tuple pins the guards down. *)
Lemma infusion_return_inv (d c v drug diluent conc : Q) :
  perform_infusion_preparation_calculation d c v
  = Return (drug, diluent, conc) ->
  ~ c == 0 /\ ~ v == 0 /\ d / c <= v /\ 0 <= d / c /\
  drug = d / c /\ diluent = v - d / c /\ conc = d / v.
Proof.
  intros Hret.
  destruct (infusion_cases d c v)
    as [[_ E]|[(_ & _ & E)|[(_ & _ & _ & E)|[(_ & _ & _ & _ & E)|
        (Hc & Hv & Hle & Hge & E)]]]];
    rewrite E in Hret; try discriminate.
  injection Hret as <- <- <-. auto 10.
Qed.



(** Over exact rationals, whenever the infusion preparation returns, the
    drug volume and the diluent volume add up to the final volume.  This is
    the algebra of the formulas; see [Binary64] for what the rounded
    subtraction returns. *)
Lemma volumes_add_up_over_rationals (d c v drug diluent conc : Q) :
  perform_infusion_preparation_calculation d c v
  = Return (drug, diluent, conc) ->
  drug + diluent == v.
Proof.
  intros Hret.
  apply infusion_return_inv in Hret
    as (_ & _ & _ & _ & -> & -> & _).
  ring.
Qed.

(** ** Dose per weight: the zero guard *)

(** C2.  With a concentration value equal to zero the dose-per-weight
    calculation raises the zero-concentration error, whatever the weight,
    the dose and the unit string are: the guard precedes the classification
    of the unit. *)
Theorem dose_zero_concentration (w d c : Q) (u : string) :
  c == 0 ->
  perform_dose_per_weight_calculation w d c u
  = Raise (ValueError msg_zero_concentration).
Proof.
  intros Hc. unfold perform_dose_per_weight_calculation.
  apply is_zero_iff in Hc. now rewrite Hc.
Qed.

Lemma dose_zero_concentration_witness :
  perform_dose_per_weight_calculation 10 2 0 "mg/tablet"
  = Raise (ValueError msg_zero_concentration).
Proof.
  apply (dose_zero_concentration 10 2 0 "mg/tablet"). reflexivity.
Defined.

(** ** Rate and duration *)

Lemma rate_from_duration_eq (V D t : Q) :
  ~ t == 0 ->
  perform_rate_duration_calculation V D t "rate_from_duration"
  = Return (V / t, t, D / t).
Proof.
  intros Ht. apply not_zero_iff in Ht.
  unfold perform_rate_duration_calculation. simpl. now rewrite Ht.
Qed.

Lemma duration_from_rate_eq (V D r : Q) :
  ~ r == 0 -> ~ V == 0 ->
  perform_rate_duration_calculation V D r "duration_from_rate"
  = Return (r, V / r, r * (D / V)).
Proof.
  intros Hr HV. apply not_zero_iff in Hr. apply not_zero_iff in HV.
  unfold perform_rate_duration_calculation. simpl. now rewrite Hr, HV.
Qed.

Lemma div_nonzero (x y : Q) : ~ x == 0 -> ~ y == 0 -> ~ x / y == 0.
Proof.
  intros Hx Hy Hq. apply Hx. exact (div_zero_inv x y Hy Hq).
Qed.

Lemma div_div_cancel (x y : Q) : ~ x == 0 -> ~ y == 0 -> x / (x / y) == y.
Proof. intros Hx Hy. field. auto. Qed.

(** C7.  In mode [duration_from_rate], a zero total volume with a nonzero
    rate raises the "Total volume cannot be zero ..." error; the zero-rate
    guard comes first, so a zero rate raises its own error even when the
    volume is zero too; and mode [rate_from_duration] never raises the
    total-volume error. *)
Theorem duration_from_rate_zero_volume (V D value : Q) :
  (V == 0 -> ~ value == 0 ->
   perform_rate_duration_calculation V D value "duration_from_rate"
   = Raise (ValueError msg_zero_volume)) /\
  (value == 0 ->
   perform_rate_duration_calculation V D value "duration_from_rate"
   = Raise (ValueError msg_zero_rate)) /\
  perform_rate_duration_calculation V D value "rate_from_duration"
  <> Raise (ValueError msg_zero_volume) /\
  (V == 0 -> ~ value == 0 ->
   perform_rate_duration_calculation V D value "rate_from_duration"
   = Return (V / value, value, D / value)).
Proof.
  unfold perform_rate_duration_calculation. simpl.
  destruct (Qeq_bool value 0) eqn:Hval; destruct (Qeq_bool V 0) eqn:HV;
    reflect_tests; repeat split; intros; try discriminate; tauto.
Qed.

Lemma duration_from_rate_zero_volume_witness :
  perform_rate_duration_calculation 0 100 50 "duration_from_rate"
  = Raise (ValueError msg_zero_volume).
Proof.
  apply (proj1 (duration_from_rate_zero_volume 0 100 50));
    [reflexivity | discriminate].
Defined.

(** Over exact rationals the two modes are inverse to each other: for a
    positive volume, drug mass and value, each round trip returns and gives
    the value back.  This is the algebra of the formulas; see [Binary64] for
    the rounded quotients. *)
Lemma round_trip_over_rationals (V D x : Q) :
  0 < V -> 0 < D -> 0 < x ->
  (exists rate delivery duration' delivery',
     perform_rate_duration_calculation V D x "rate_from_duration"
     = Return (rate, x, delivery) /\
     perform_rate_duration_calculation V D rate "duration_from_rate"
     = Return (rate, duration', delivery') /\
     duration' == x) /\
  (exists duration delivery rate' delivery',
     perform_rate_duration_calculation V D x "duration_from_rate"
     = Return (x, duration, delivery) /\
     perform_rate_duration_calculation V D duration "rate_from_duration"
     = Return (rate', duration, delivery') /\
     rate' == x).
Proof.
  intros HV HD Hx.
  assert (HV0 : ~ V == 0) by lra.
  assert (Hx0 : ~ x == 0) by lra.
  pose proof (div_nonzero V x HV0 Hx0) as Hq.
  split.
  - exists (V / x), (D / x), (V / (V / x)), (V / x * (D / V)).
    split; [now apply rate_from_duration_eq|].
    split; [now apply duration_from_rate_eq|].
    now apply div_div_cancel.
  - exists (V / x), (x * (D / V)), (V / (V / x)), (D / (V / x)).
    split; [now apply duration_from_rate_eq|].
    split; [now apply rate_from_duration_eq|].
    now apply div_div_cancel.
Qed.

(** ** Substring search and lower-casing *)

Lemma prefix_iff (sub s : string) :
  String.prefix sub s = true <-> exists q, s = sub ++ q.
Proof.
  revert s. induction sub as [|a sub IH]; intros [|b s]; simpl.
  - split; [intros _; now exists EmptyString | reflexivity].
  - split; [intros _; now exists (String b s) | reflexivity].
  - split; [discriminate | intros [q Hq]; discriminate].
  - destruct (ascii_dec a b) as [->|Hab].
    + rewrite IH. split; intros [q Hq]; exists q; congruence.
    + split; [discriminate | intros [q Hq]; congruence].
Qed.

Lemma str_in_iff (sub s : string) : str_in sub s = true <-> occurs sub s.
Proof.
  unfold occurs. induction s as [|b s IH]; cbn [str_in].
  - rewrite orb_false_r, prefix_iff. split.
    + intros [q Hq]. now exists EmptyString, q.
    + intros [[|a p] [q Hq]]; [now exists q | discriminate].
  - rewrite orb_true_iff, prefix_iff, IH. split.
    + intros [[q Hq]|[p [q Hq]]].
      * now exists EmptyString, q.
      * exists (String b p), q. simpl. now rewrite Hq.
    + intros [[|a p] [q Hq]].
      * left. now exists q.
      * right. exists p, q. simpl in Hq. congruence.
Qed.

Lemma lower_app (a b : string) : lower (a ++ b) = lower a ++ lower b.
Proof. induction a as [|c a IH]; simpl; [reflexivity | now rewrite IH]. Qed.

(** A split of [lower u] comes from a split of [u]. *)
Lemma lower_split (u a b : string) :
  lower u = a ++ b ->
  exists a' b', u = a' ++ b' /\ lower a' = a /\ lower b' = b.
Proof.
  revert u. induction a as [|c a IH]; intros u Hu; simpl in Hu.
  - now exists EmptyString, u.
  - destruct u as [|c' u]; [discriminate|]. simpl in Hu.
    injection Hu as Hc Hrest.
    destruct (IH u Hrest) as (a' & b' & -> & Ha & Hb).
    exists (String c' a'), b'. simpl. now rewrite Hc, Ha.
Qed.

(** The test the code runs, [sub in s.lower()], is containment up to case. *)
Lemma str_in_lower_iff (sub s : string) :
  str_in sub (lower s) = true <-> contains_ignoring_case sub s.
Proof.
  rewrite str_in_iff. unfold occurs, contains_ignoring_case. split.
  - intros (p & q & Hs).
    destruct (lower_split s p (sub ++ q) Hs) as (p' & r & -> & _ & Hr).
    destruct (lower_split r sub q Hr) as (m & q' & -> & Hm & _).
    now exists p', m, q'.
  - intros (p & m & q & -> & Hm).
    exists (lower p), (lower q). now rewrite !lower_app, Hm.
Qed.

Lemma str_in_lower_false_iff (sub s : string) :
  str_in sub (lower s) = false <-> ~ contains_ignoring_case sub s.
Proof.
  rewrite <- str_in_lower_iff. destruct (str_in sub (lower s)); intuition congruence.
Qed.

(** ** Dose per weight: classification of the unit *)



(** C3, as the specification has it: over every concentration value.  It
    fails at a zero concentration, where the guard raises first. *)
Lemma unrecognized_yields_null_fails_at_zero :
  unrecognized "mg/capsule" /\
  perform_dose_per_weight_calculation 10 1 0 "mg/capsule"
  = Raise (ValueError msg_zero_concentration) /\
  ~ unrecognized_yields_null 10 1 0 "mg/capsule".
Proof.
  assert (Hu : unrecognized "mg/capsule")
    by (repeat split; apply str_in_lower_false_iff; reflexivity).
  split; [exact Hu|]. split; [reflexivity|].
  intros Hclaim. specialize (Hclaim Hu). discriminate Hclaim.
Qed.

(** C3, amended.  For a nonzero concentration value and a unit that
    contains none of "/ml", "/tablet" and "mg/tab" up to case, the
    calculation returns the total, no quantity and the label
    "unrecognized_unit". *)
Theorem dose_unrecognized (w d c : Q) (u : string) :
  ~ c == 0 ->
  unrecognized u ->
  perform_dose_per_weight_calculation w d c u
  = Return (w * d, None, "unrecognized_unit").
Proof.
  intros Hc (Hml & Htablet & Htab).
  apply not_zero_iff in Hc.
  apply str_in_lower_false_iff in Hml, Htablet, Htab.
  unfold perform_dose_per_weight_calculation.
  now rewrite Hc, Hml, Htablet, Htab.
Qed.

Lemma dose_unrecognized_witness :
  perform_dose_per_weight_calculation 10 1 10 "mg/capsule"
  = Return (10 * 1, None, "unrecognized_unit").
Proof.
  apply (dose_unrecognized 10 1 10 "mg/capsule").
  - discriminate.
  - repeat split; apply str_in_lower_false_iff; reflexivity.
Defined.

(** ** The catalog loader *)

Section LoadMedications.

Variable json_load : string -> result pyvalue.
Variable fs : filesystem.
Variable filepath : string.

Lemma load_medications_absent :
  path_exists fs filepath = false ->
  load_medications json_load fs filepath = Return (PyList []).
Proof. intros He. unfold load_medications. now rewrite He. Qed.

Lemma load_medications_unopenable :
  open_read fs filepath = Raise IOError ->
  load_medications json_load fs filepath = Return (PyList []).
Proof.
  intros Ho. unfold load_medications.
  destruct (path_exists fs filepath); simpl; [now rewrite Ho | reflexivity].
Qed.

Lemma load_medications_malformed (text : string) :
  open_read fs filepath = Return text ->
  json_load text = Raise JSONDecodeError ->
  load_medications json_load fs filepath = Return (PyList []).
Proof.
  intros Ho Hj. unfold load_medications.
  destruct (path_exists fs filepath); simpl; [|reflexivity].
  rewrite Ho. simpl. now rewrite Hj.
Qed.

(** A document that decodes is handed back as it is, whatever its shape. *)
Lemma load_medications_decoded (text : string) (v : pyvalue) :
  path_exists fs filepath = true ->
  open_read fs filepath = Return text ->
  json_load text = Return v ->
  load_medications json_load fs filepath = Return v.
Proof.
  intros He Ho Hj. unfold load_medications.
  rewrite He, Ho. simpl. now rewrite Hj.
Qed.

(** An exception of a class the [except] clause does not name gets out. *)
Lemma load_medications_propagates (text : string) (e : exn) :
  path_exists fs filepath = true ->
  open_read fs filepath = Return text ->
  json_load text = Raise e ->
  load_handled e = false ->
  load_medications json_load fs filepath = Raise e.
Proof.
  intros He Ho Hj Hh. unfold load_medications.
  rewrite He, Ho. simpl. rewrite Hj. simpl. now rewrite Hh.
Qed.

End LoadMedications.

(** C9, at a store that holds the one-line document [42].  The document is
    well-formed JSON, so [json.load] decodes it to the integer 42 and the
    loader returns that integer: not a sequence of records, and not the
    empty sequence either. *)
Theorem load_medications_scalar_document
    (json_load : string -> result pyvalue) :
  json_load "42" = Return (PyInt 42) ->
  load_medications json_load (single_file "medications.json" "42")
                   "medications.json"
  = Return (PyInt 42) /\
  is_record_list (PyInt 42) = false.
Proof.
  intros Hj. split; [|reflexivity].
  now apply (load_medications_decoded json_load _ _ "42").
Qed.

Lemma load_medications_scalar_document_witness :
  load_medications decode_only_42 (single_file "medications.json" "42")
                   "medications.json"
  = Return (PyInt 42) /\
  is_record_list (PyInt 42) = false.
Proof.
  apply (load_medications_scalar_document decode_only_42). reflexivity.
Defined.

(** * Further properties of the calculation helpers *)

(** ** Dose per weight *)

(** With a nonzero concentration the function returns, and the three
    branches are told apart by the two tests on the lower-cased unit. *)
Lemma dose_cases (w d c : Q) (u : string) :
  ~ c == 0 ->
  (contains_ignoring_case "/ml" u /\
   perform_dose_per_weight_calculation w d c u
   = Return (w * d, Some (w * d / c), "mL")) \/
  (~ contains_ignoring_case "/ml" u /\
   (contains_ignoring_case "/tablet" u \/ contains_ignoring_case "mg/tab" u) /\
   perform_dose_per_weight_calculation w d c u
   = Return (w * d, Some (w * d / c), "tablets")) \/
  (unrecognized u /\
   perform_dose_per_weight_calculation w d c u
   = Return (w * d, None, "unrecognized_unit")).
Proof.
  intros Hc. apply not_zero_iff in Hc.
  unfold perform_dose_per_weight_calculation, unrecognized. rewrite Hc.
  destruct (str_in "/ml" (lower u)) eqn:Hml.
  { left. apply str_in_lower_iff in Hml. auto. }
  right. apply str_in_lower_false_iff in Hml.
  destruct (str_in "/tablet" (lower u)) eqn:Htablet.
  { left. apply str_in_lower_iff in Htablet. auto. }
  apply str_in_lower_false_iff in Htablet.
  destruct (str_in "mg/tab" (lower u)) eqn:Htab.
  { left. apply str_in_lower_iff in Htab. auto. }
  right. apply str_in_lower_false_iff in Htab. auto.
Qed.



(** X3.  In a returned tuple the quantity is absent exactly when the unit
    is unrecognized, and exactly then the label is "unrecognized_unit". *)
Theorem dose_quantity_absent_iff (w d c : Q) (u : string)
    (total : Q) (quantity : option Q) (label : string) :
  perform_dose_per_weight_calculation w d c u
  = Return (total, quantity, label) ->
  (quantity = None <-> unrecognized u) /\
  (label = "unrecognized_unit" <-> unrecognized u).
Proof.
  intros Hret.
  assert (Hc : ~ c == 0).
  { intros Hz. apply is_zero_iff in Hz.
    unfold perform_dose_per_weight_calculation in Hret.
    rewrite Hz in Hret. discriminate. }
  unfold unrecognized.
  destruct (dose_cases w d c u Hc)
    as [[Hml E]|[(Hml & Hsolid & E)|[(Hml & Htablet & Htab) E]]];
    rewrite E in Hret; injection Hret as <- <- <-;
    repeat split; intros; try discriminate; try tauto.
Qed.

Lemma dose_quantity_absent_iff_witness :
  (@None Q = None <-> unrecognized "mg/capsule") /\
  ("unrecognized_unit" = "unrecognized_unit" <-> unrecognized "mg/capsule").
Proof.
  apply (dose_quantity_absent_iff 10 1 10 "mg/capsule" (10 * 1)).
  reflexivity.
Defined.

(** [lower] changes nothing in a string that is already lower-cased. *)
Lemma ascii_lower_idempotent (c : ascii) :
  ascii_lower (ascii_lower c) = ascii_lower c.
Proof.
  destruct c as [[] [] [] [] [] [] [] []]; reflexivity.
Qed.

Lemma lower_idempotent (s : string) : lower (lower s) = lower s.
Proof.
  induction s as [|c s IH]; simpl;
    [reflexivity | now rewrite ascii_lower_idempotent, IH].
Qed.

(** X5.  The caller [calculate_dose_per_weight] lower-cases the unit before
    the call; that changes nothing: the calculation gives the same result
    on a unit and on its lower-cased form. *)
Theorem dose_lowered_unit (w d c : Q) (u : string) :
  perform_dose_per_weight_calculation w d c (lower u)
  = perform_dose_per_weight_calculation w d c u.
Proof.
  unfold perform_dose_per_weight_calculation.
  now rewrite lower_idempotent.
Qed.

(** ** Rate and duration *)

(** X10.  Every mode string other than the two known ones raises "Invalid
    mode: " followed by the string itself, before any number is looked at
    (so also when volume and value are zero). *)
Theorem rate_duration_invalid_mode (V D value : Q) (mode : string) :
  mode <> "rate_from_duration" ->
  mode <> "duration_from_rate" ->
  perform_rate_duration_calculation V D value mode
  = Raise (ValueError ("Invalid mode: " ++ mode)).
Proof.
  intros H1 H2. apply String.eqb_neq in H1, H2.
  unfold perform_rate_duration_calculation. now rewrite H1, H2.
Qed.

Lemma rate_duration_invalid_mode_witness :
  perform_rate_duration_calculation 0 0 0 "Rate_From_Duration"
  = Raise (ValueError "Invalid mode: Rate_From_Duration").
Proof.
  apply (rate_duration_invalid_mode 0 0 0 "Rate_From_Duration"); discriminate.
Defined.

(** * Further properties of the catalog loader *)

(** X14.  The loader gives the empty list in each of the three degraded
    states of the store: the path does not exist, opening it raises
    [IOError], or decoding its content raises [JSONDecodeError]. *)
Theorem load_medications_degrades_to_empty
    (json_load : string -> result pyvalue) (fs : filesystem)
    (filepath : string) :
  path_exists fs filepath = false \/
  open_read fs filepath = Raise IOError \/
  (exists text, open_read fs filepath = Return text /\
                json_load text = Raise JSONDecodeError) ->
  load_medications json_load fs filepath = Return (PyList []).
Proof.
  intros [Habsent | [Hopen | (text & Hopen & Hdecode)]].
  - now apply load_medications_absent.
  - now apply load_medications_unopenable.
  - now apply (load_medications_malformed json_load fs filepath text).
Qed.

Lemma load_medications_degrades_to_empty_witness :
  load_medications decode_only_42 (single_file "medications.json" "[1, 2")
                   "medications.json"
  = Return (PyList []).
Proof.
  apply load_medications_degrades_to_empty.
  right. right. exists "[1, 2". split; reflexivity.
Defined.

(** X15.  What gets out of the loader.  An exception that escapes is one
    that [open] or [json.load] raised and whose class the [except] clause
    does not name; a returned value is the empty list or the very value
    [json.load] decoded from the content of the file. *)
Theorem load_medications_outcome
    (json_load : string -> result pyvalue) (fs : filesystem)
    (filepath : string) :
  (forall e,
     load_medications json_load fs filepath = Raise e ->
     load_handled e = false /\
     (open_read fs filepath = Raise e \/
      exists text, open_read fs filepath = Return text /\
                   json_load text = Raise e)) /\
  (forall v,
     load_medications json_load fs filepath = Return v ->
     v = PyList [] \/
     exists text, open_read fs filepath = Return text /\
                  json_load text = Return v).
Proof.
  unfold load_medications.
  destruct (path_exists fs filepath); simpl.
  2: { split; [discriminate | intros v [= <-]; now left]. }
  destruct (open_read fs filepath) as [text|e0] eqn:Hopen; simpl.
  - destruct (json_load text) as [v0|e0] eqn:Hdecode; simpl.
    + split; [discriminate | intros v [= <-]; right; eauto].
    + destruct (load_handled e0) eqn:Hh; split;
        try discriminate.
      * intros v [= <-]. now left.
      * intros e [= <-]. split; [exact Hh | right; eauto].
  - destruct (load_handled e0) eqn:Hh; split; try discriminate.
    + intros v [= <-]. now left.
    + intros e [= <-]. split; [exact Hh | now left].
Qed.

(** * The interactive functions *)

Section InteractiveProperties.

Variable float_of_string : string -> option Q.
Variable json_load : string -> result pyvalue.
Variable json_dump : pyvalue -> string.

Local Abbreviation loop := (get_positive_float_input_from float_of_string).
Local Abbreviation is_rejected := (rejected float_of_string).
Local Abbreviation rejection_of := (rejection float_of_string).

(** Rejected lines are read one after the other; each leaves its prompt and
    its message behind. *)
Lemma loop_skips_rejected (prompt : string) (skipped lines : list string) :
  forall out,
  forallb is_rejected skipped = true ->
  loop prompt (skipped ++ lines) out
  = loop prompt lines (out ++ flat_map (rejection_of prompt) skipped).
Proof.
  induction skipped as [|line skipped IH]; intros out Hrej; simpl.
  - now rewrite app_nil_r.
  - simpl in Hrej. apply andb_true_iff in Hrej as [Hline Hrest].
    unfold rejected, rejection in *.
    destruct (float_of_string line) as [value|].
    + apply negb_true_iff in Hline. rewrite Hline.
      rewrite (IH _ Hrest). now rewrite <- !app_assoc.
    + rewrite (IH _ Hrest). now rewrite <- !app_assoc.
Qed.

(** A returned value was accepted by the test [value > 0], and at least one
    line was read for it. *)
Lemma loop_returns_positive (prompt : string) (lines : list string) :
  forall out v rest out',
  loop prompt lines out = (Return v, rest, out') ->
  0 < v /\ exists taken, taken <> [] /\ lines = (taken ++ rest)%list.
Proof.
  induction lines as [|line lines IH]; intros out v rest out' Hrun;
    simpl in Hrun; [discriminate|].
  assert (Hrec : forall out0,
             loop prompt lines out0 = (Return v, rest, out') ->
             0 < v /\
             exists taken, taken <> [] /\ line :: lines = (taken ++ rest)%list).
  { intros out0 H0. destruct (IH _ _ _ _ H0) as (Hv & taken & _ & ->).
    split; [exact Hv|]. exists (line :: taken). split; [discriminate|reflexivity]. }
  destruct (float_of_string line) as [value|]; [|now apply Hrec in Hrun].
  destruct (Qgt_bool value 0) eqn:Hgt; [|now apply Hrec in Hrun].
  injection Hrun as <- <- <-. apply gt_iff in Hgt.
  split; [exact Hgt|]. exists [line]. split; [discriminate|reflexivity].
Qed.

(** X16.  [get_positive_float_input] returns only positive numbers: a
    returned value is greater than zero, at least one line of input was
    consumed for it, and the files are untouched. *)
Theorem get_positive_float_input_positive (prompt : string) (w w' : world)
    (v : Q) :
  get_positive_float_input float_of_string prompt w = (Return v, w') ->
  0 < v /\
  (exists taken, taken <> [] /\ stdin w = (taken ++ stdin w')%list) /\
  files w' = files w /\ write_allowed w' = write_allowed w.
Proof.
  unfold get_positive_float_input.
  destruct (loop prompt (stdin w) (stdout w)) as [[r lines] out] eqn:Hrun.
  intros [= -> <-]. simpl.
  destruct (loop_returns_positive _ _ _ _ _ _ Hrun) as [Hv Htaken].
  auto.
Qed.

(** X17.  When the input holds some rejected lines (not a number, or a
    number that is not positive) and then a line that reads as a positive
    number, that number is returned, exactly those lines are consumed, and
    the console shows one prompt and one message per rejected line and a
    last prompt. *)
Theorem get_positive_float_input_first_accepted (prompt : string)
    (w : world) (skipped : list string) (line : string) (rest : list string)
    (v : Q) :
  stdin w = (skipped ++ line :: rest)%list ->
  forallb is_rejected skipped = true ->
  float_of_string line = Some v ->
  0 < v ->
  get_positive_float_input float_of_string prompt w
  = (Return v,
     {| stdin := rest;
        stdout := (stdout w ++ flat_map (rejection_of prompt) skipped
                   ++ [Prompted prompt])%list;
        files := files w;
        write_allowed := write_allowed w;
        write_failure := write_failure w |}).
Proof.
  intros Hin Hrej Hline Hv. unfold get_positive_float_input.
  rewrite Hin, (loop_skips_rejected _ _ _ _ Hrej). simpl.
  apply gt_iff in Hv. rewrite Hline, Hv. now rewrite <- app_assoc.
Qed.

(** X18.  When every line that is left is rejected, the loop reads them all
    and ends with [EOFError] at the next prompt: it never gives up with a
    default value. *)
Theorem get_positive_float_input_exhausted (prompt : string) (w : world) :
  forallb is_rejected (stdin w) = true ->
  get_positive_float_input float_of_string prompt w
  = (Raise EOFError,
     {| stdin := [];
        stdout := (stdout w ++ flat_map (rejection_of prompt) (stdin w)
                   ++ [Prompted prompt])%list;
        files := files w;
        write_allowed := write_allowed w;
        write_failure := write_failure w |}).
Proof.
  intros Hrej. unfold get_positive_float_input.
  rewrite <- (app_nil_r (stdin w)) at 1.
  rewrite (loop_skips_rejected _ _ _ _ Hrej). simpl.
  now rewrite <- app_assoc.
Qed.

End InteractiveProperties.

Lemma get_positive_float_input_positive_witness :
  0 < 20 /\
  (exists taken,
     taken <> [] /\ ["abc"; "-3"; "20.0"; "next"] = (taken ++ ["next"])%list) /\
  empty_disk = empty_disk /\
  (fun _ : string => true) = (fun _ : string => true).
Proof.
  apply (get_positive_float_input_positive parse_example "Value: "
           (console ["abc"; "-3"; "20.0"; "next"] empty_disk true)
           {| stdin := ["next"];
              stdout := [Prompted "Value: ";
                         Printed "Invalid input. Please enter a number.";
                         Prompted "Value: ";
                         Printed "Value must be positive. Please try again.";
                         Prompted "Value: "];
              files := empty_disk;
              write_allowed := fun _ => true;
        write_failure := fun _ => OpenRefused |}).
  reflexivity.
Defined.

Lemma get_positive_float_input_first_accepted_witness :
  get_positive_float_input parse_example "Value: "
    (console ["abc"; "0"; "20.0"; "next"] empty_disk true)
  = (Return 20,
     {| stdin := ["next"];
        stdout := [Prompted "Value: ";
                   Printed "Invalid input. Please enter a number.";
                   Prompted "Value: ";
                   Printed "Value must be positive. Please try again.";
                   Prompted "Value: "];
        files := empty_disk;
        write_allowed := fun _ => true;
        write_failure := fun _ => OpenRefused |}).
Proof.
  apply (get_positive_float_input_first_accepted parse_example "Value: "
           (console ["abc"; "0"; "20.0"; "next"] empty_disk true)
           ["abc"; "0"] "20.0" ["next"] 20); reflexivity.
Defined.

Lemma get_positive_float_input_exhausted_witness :
  get_positive_float_input parse_example "Value: "
    (console ["-3"; "abc"] empty_disk true)
  = (Raise EOFError,
     {| stdin := [];
        stdout := [Prompted "Value: ";
                   Printed "Value must be positive. Please try again.";
                   Prompted "Value: ";
                   Printed "Invalid input. Please enter a number.";
                   Prompted "Value: "];
        files := empty_disk;
        write_allowed := fun _ => true;
        write_failure := fun _ => OpenRefused |}).
Proof.
  apply (get_positive_float_input_exhausted parse_example "Value: "
           (console ["-3"; "abc"] empty_disk true)).
  reflexivity.
Defined.

(** ** Saving the catalog *)

Lemma save_medications_through (json_dump : pyvalue -> string)
    (medications : pyvalue) (filepath : string) (w : world) :
  write_allowed w filepath = true ->
  save_medications json_dump medications filepath w
  = (Return true,
     {| stdin := stdin w;
        stdout := stdout w;
        files := write_file (files w) filepath (json_dump medications);
        write_allowed := write_allowed w;
        write_failure := write_failure w |}).
Proof.
  intros Hallowed.
  unfold save_medications, io_try, io_bind, write_text, ret.
  now rewrite Hallowed.
Qed.

Lemma save_medications_refused (json_dump : pyvalue -> string)
    (medications : pyvalue) (filepath : string) (w : world) :
  write_allowed w filepath = false ->
  write_failure w filepath = OpenRefused ->
  save_medications json_dump medications filepath w = (Return false, w).
Proof.
  intros Hallowed Hmode.
  unfold save_medications, io_try, io_bind, write_text, ret.
  now rewrite Hallowed, Hmode.
Qed.

Lemma save_medications_interrupted (json_dump : pyvalue -> string)
    (medications : pyvalue) (filepath : string) (w : world)
    (kept : nat) (e : exn) :
  write_allowed w filepath = false ->
  write_failure w filepath = Interrupted kept e ->
  save_medications json_dump medications filepath w
  = (if is_IOError e then Return false else Raise e,
     {| stdin := stdin w;
        stdout := stdout w;
        files := write_file (files w) filepath
                   (substring 0 kept (json_dump medications));
        write_allowed := write_allowed w;
        write_failure := write_failure w |}).
Proof.
  intros Hallowed Hmode.
  unfold save_medications, io_try, io_bind, write_text, ret.
  rewrite Hallowed, Hmode. now destruct (is_IOError e).
Qed.

(** X19.  What [save_medications] does, case by case.  The console is never
    touched.  When the write goes through it returns [True] and the file
    holds the dumped catalog.  When the open is refused it returns [False]
    and the files are as before.  When the write breaks after the open, the
    file is left with the start of the dumped text, and the function
    returns [False] for an [IOError] and lets any other exception escape. *)
Theorem save_medications_outcome (json_dump : pyvalue -> string)
    (medications : pyvalue) (filepath : string) (w : world) :
  let '(r, w') := save_medications json_dump medications filepath w in
  stdin w' = stdin w /\ stdout w' = stdout w /\
  write_allowed w' = write_allowed w /\ write_failure w' = write_failure w /\
  if write_allowed w filepath then
    r = Return true /\
    files w' = write_file (files w) filepath (json_dump medications)
  else
    match write_failure w filepath with
    | OpenRefused => r = Return false /\ files w' = files w
    | Interrupted kept e =>
        r = (if is_IOError e then Return false else Raise e) /\
        files w' = write_file (files w) filepath
                     (substring 0 kept (json_dump medications))
    end.
Proof.
  destruct (write_allowed w filepath) eqn:Hallowed.
  - rewrite (save_medications_through _ _ _ _ Hallowed).
    cbn [stdin stdout files write_allowed write_failure]. auto 10.
  - destruct (write_failure w filepath) as [|kept e] eqn:Hmode.
    + rewrite (save_medications_refused _ _ _ _ Hallowed Hmode). auto 10.
    + rewrite (save_medications_interrupted _ _ _ _ _ _ Hallowed Hmode).
      cbn [stdin stdout files write_allowed write_failure]. auto 10.
Qed.

Lemma load_after_write (json_load : string -> result pyvalue)
    (fs : filesystem) (path content : string) :
  load_medications json_load (write_file fs path content) path
  = try_except (json_load content) load_handled (Return (PyList [])).
Proof.
  unfold load_medications, write_file. simpl.
  rewrite String.eqb_refl. simpl.
  now destruct (json_load content).
Qed.




(** ** Adding a medication *)

Section AddMedication.

Variable float_of_string : string -> option Q.
Variable json_load : string -> result pyvalue.
Variable json_dump : pyvalue -> string.
Variable strip : string -> string.

Local Abbreviation add :=
  (add_medication float_of_string json_load json_dump strip).
Local Abbreviation transcript := (entry_transcript float_of_string).

(** Run the loading and the four prompts of such a session. *)
Ltac run_prompts w Hs Hin Hrej Hline Hv Hload :=
  destruct Hs as (Hin & Hrej & Hline & Hv);
  destruct w as [sin sout fs allowed failure]; simpl in *; subst sin;
  apply gt_iff in Hv;
  unfold add_medication, io_bind, load_medications_io,
    get_positive_float_input;
  cbn [stdin stdout files write_allowed write_failure print input write_out];
  rewrite Hload;
  cbn [stdin stdout files write_allowed write_failure print input write_out];
  rewrite (loop_skips_rejected _ _ _ _ _ Hrej);
  cbn [get_positive_float_input_from]; rewrite Hline, Hv;
  cbn [stdin stdout files write_allowed write_failure print input write_out].

Ltac normalise_transcript :=
  unfold entry_transcript, press_enter;
  repeat rewrite <- app_assoc; simpl.

(** X21.  A complete entry is appended and saved.  When the catalog loads
    as a list, the name and the unit are not empty after [strip] and the
    file is opened and written, [add_medication] writes the old records
    followed by the new one (fields stripped, concentration as typed),
    reports success and returns after Enter; and if the dumped text decodes
    to what was dumped, loading the catalog afterwards gives the old
    records followed by the new one. *)
Theorem add_medication_appends (w : world) (name presentation : string)
    (skipped : list string) (value_line unit_line enter : string)
    (rest : list string) (v : Q) (items : list pyvalue) :
  session float_of_string w name presentation skipped value_line unit_line
          enter rest v ->
  load_medications json_load (files w) default_filepath
  = Return (PyList items) ->
  strip name <> "" ->
  strip unit_line <> "" ->
  write_allowed w default_filepath = true ->
  let record :=
    new_medication (strip name) (strip presentation) v (strip unit_line) in
  let catalog := PyList (items ++ [record]) in
  add w
  = (Return tt,
     {| stdin := rest;
        stdout := (stdout w ++ transcript skipped
                   ++ [Printed ("Medication '" ++ strip name
                                ++ "' added successfully.");
                       Prompted press_enter])%list;
        files := write_file (files w) default_filepath (json_dump catalog);
        write_allowed := write_allowed w;
        write_failure := write_failure w |}) /\
  (json_load (json_dump catalog) = Return catalog ->
   load_medications json_load (files (snd (add w))) default_filepath
   = Return catalog).
Proof.
  intros Hs Hload Hname Hunit Hallowed record catalog.
  assert (Hrun : add w
    = (Return tt,
       {| stdin := rest;
          stdout := (stdout w ++ transcript skipped
                     ++ [Printed ("Medication '" ++ strip name
                                  ++ "' added successfully.");
                         Prompted press_enter])%list;
          files := write_file (files w) default_filepath (json_dump catalog);
          write_allowed := write_allowed w;
        write_failure := write_failure w |})).
  { subst record catalog.
    apply String.eqb_neq in Hname, Hunit.
    run_prompts w Hs Hin Hrej Hline Hv Hload.
    rewrite Hname, Hunit. unfold lift, py_append.
    rewrite save_medications_through by exact Hallowed.
    cbn [stdin stdout files write_allowed write_failure print input write_out ret].
    f_equal. f_equal. now normalise_transcript. }
  split; [exact Hrun|].
  intros Hround. rewrite Hrun. simpl.
  now rewrite load_after_write, Hround.
Qed.

(** X22.  When the save of a complete entry fails, the console reports
    that the medication could not be saved and the function returns after
    Enter.  If opening the catalog for writing was refused, the files are
    as before; if the write broke with an [IOError] after the open, the
    catalog file is left with the start of the new text, so the records it
    held are lost. *)
Theorem add_medication_save_fails (w : world) (name presentation : string)
    (skipped : list string) (value_line unit_line enter : string)
    (rest : list string) (v : Q) (items : list pyvalue) :
  session float_of_string w name presentation skipped value_line unit_line
          enter rest v ->
  load_medications json_load (files w) default_filepath
  = Return (PyList items) ->
  strip name <> "" ->
  strip unit_line <> "" ->
  write_allowed w default_filepath = false ->
  write_failure w default_filepath = OpenRefused \/
  (exists kept, write_failure w default_filepath = Interrupted kept IOError) ->
  let record :=
    new_medication (strip name) (strip presentation) v (strip unit_line) in
  let catalog := PyList (items ++ [record]) in
  add w
  = (Return tt,
     {| stdin := rest;
        stdout := (stdout w ++ transcript skipped
                   ++ [Printed ("Error: Could not save medication '"
                                ++ strip name ++ "'.");
                       Prompted press_enter])%list;
        files := match write_failure w default_filepath with
                 | OpenRefused => files w
                 | Interrupted kept _ =>
                     write_file (files w) default_filepath
                       (substring 0 kept (json_dump catalog))
                 end;
        write_allowed := write_allowed w;
        write_failure := write_failure w |}).
Proof.
  intros Hs Hload Hname Hunit Hallowed Hmode record catalog.
  subst record catalog.
  apply String.eqb_neq in Hname, Hunit.
  run_prompts w Hs Hin Hrej Hline Hv Hload.
  rewrite Hname, Hunit. unfold lift, py_append.
  destruct Hmode as [Hmode|[kept Hmode]].
  - rewrite save_medications_refused
      by first [exact Hallowed | exact Hmode].
    cbn [stdin stdout files write_allowed write_failure print input write_out ret].
    rewrite Hmode. f_equal. f_equal. now normalise_transcript.
  - rewrite (save_medications_interrupted _ _ _ _ kept IOError)
      by first [exact Hallowed | exact Hmode].
    cbn [stdin stdout files write_allowed write_failure print input write_out
         ret is_IOError].
    rewrite Hmode. f_equal. f_equal. now normalise_transcript.
Qed.

(** X23.  A name or a unit that [strip] leaves empty is found out only
    after all four fields were asked for; then nothing is written, whatever
    the catalog holds: the console shows the error for the name if the name
    is empty, else the one for the unit, and the function returns after
    Enter. *)
Theorem add_medication_rejects_blank (w : world) (name presentation : string)
    (skipped : list string) (value_line unit_line enter : string)
    (rest : list string) (v : Q) (medications : pyvalue) :
  session float_of_string w name presentation skipped value_line unit_line
          enter rest v ->
  load_medications json_load (files w) default_filepath
  = Return medications ->
  strip name = "" \/ strip unit_line = "" ->
  add w
  = (Return tt,
     {| stdin := rest;
        stdout := (stdout w ++ transcript skipped
                   ++ [Printed (if String.eqb (strip name) ""
                                then "Error: Commercial Name cannot be empty."
                                else "Error: Concentration Unit cannot be empty.");
                       Prompted press_enter])%list;
        files := files w;
        write_allowed := write_allowed w;
        write_failure := write_failure w |}).
Proof.
  intros Hs Hload Hblank.
  run_prompts w Hs Hin Hrej Hline Hv Hload.
  destruct (String.eqb_spec (strip name) "") as [Hname|Hname].
  - cbn [stdin stdout files write_allowed write_failure print input write_out ret].
    f_equal. f_equal. now normalise_transcript.
  - destruct Hblank as [Hn|Hu]; [contradiction|].
    rewrite Hu, String.eqb_refl.
    cbn [stdin stdout files write_allowed write_failure print input write_out ret].
    f_equal. f_equal. now normalise_transcript.
Qed.

(** X24.  When the stored document is not a list, a complete entry makes
    [add_medication] raise [AttributeError] at [append], after the four
    fields were typed; nothing is written. *)
Theorem add_medication_not_a_list (w : world) (name presentation : string)
    (skipped : list string) (value_line unit_line enter : string)
    (rest : list string) (v : Q) (medications : pyvalue) :
  session float_of_string w name presentation skipped value_line unit_line
          enter rest v ->
  load_medications json_load (files w) default_filepath
  = Return medications ->
  (forall items, medications <> PyList items) ->
  strip name <> "" ->
  strip unit_line <> "" ->
  add w
  = (Raise AttributeError,
     {| stdin := enter :: rest;
        stdout := (stdout w ++ transcript skipped)%list;
        files := files w;
        write_allowed := write_allowed w;
        write_failure := write_failure w |}).
Proof.
  intros Hs Hload Hshape Hname Hunit.
  apply String.eqb_neq in Hname, Hunit.
  run_prompts w Hs Hin Hrej Hline Hv Hload.
  rewrite Hname, Hunit. unfold lift, py_append.
  destruct medications; try (f_equal; f_equal; now normalise_transcript).
  now destruct (Hshape items).
Qed.

(** X25.  Whatever is typed and whatever the store holds, [add_medication]
    touches no file but the catalog, and only to write the list it loaded
    followed by one new record whose name and unit are not empty and whose
    concentration value is positive.  Afterwards the files are as they
    were, or the catalog file holds that text, or, when the write broke
    after the open, the start of that text. *)
Theorem add_medication_store_invariant (w : world) :
  write_allowed (snd (add w)) = write_allowed w /\
  (files (snd (add w)) = files w \/
   exists items name presentation v unit_label,
     load_medications json_load (files w) default_filepath
     = Return (PyList items) /\
     name <> "" /\ unit_label <> "" /\ 0 < v /\
     let text :=
       json_dump
         (PyList (items ++ [new_medication name presentation v unit_label])) in
     (write_allowed w default_filepath = true /\
      files (snd (add w)) = write_file (files w) default_filepath text) \/
     (exists kept e,
        write_allowed w default_filepath = false /\
        write_failure w default_filepath = Interrupted kept e /\
        files (snd (add w))
        = write_file (files w) default_filepath (substring 0 kept text))).
Proof.
  destruct w as [sin sout fs allowed failure].
  unfold add_medication, io_bind, load_medications_io,
    get_positive_float_input.
  cbn [stdin stdout files write_allowed write_failure print input write_out].
  destruct (load_medications json_load fs default_filepath)
    as [medications|e] eqn:Hload; [|simpl; auto].
  cbn [stdin stdout files write_allowed write_failure print input write_out].
  destruct sin as [|name sin]; [simpl; auto|].
  cbn [stdin stdout files write_allowed write_failure print input write_out].
  destruct sin as [|presentation sin]; [simpl; auto|].
  cbn [stdin stdout files write_allowed write_failure print input write_out].
  match goal with
  | |- context [get_positive_float_input_from ?f ?p ?l ?o] =>
      destruct (get_positive_float_input_from f p l o)
        as [[r lines] out] eqn:Hrun
  end.
  destruct r as [v|e]; [|simpl; auto].
  apply loop_returns_positive in Hrun as [Hv _].
  destruct lines as [|unit_line lines];
    cbn [stdin stdout files write_allowed write_failure print input write_out];
    [simpl; auto|].
  destruct (String.eqb_spec (strip name) "") as [Hname|Hname].
  { destruct lines; simpl; auto. }
  destruct (String.eqb_spec (strip unit_line) "") as [Hunit|Hunit].
  { destruct lines; simpl; auto. }
  unfold lift, py_append.
  destruct medications as [| | | | |items|]; try (simpl; auto; fail).
  match goal with
  | |- context [save_medications ?d ?m ?p ?w0] =>
      pose proof (save_medications_outcome d m p w0) as Hsave;
      destruct (save_medications d m p w0) as [saved w1]
  end.
  destruct w1 as [sin1 sout1 fs1 allowed1 failure1].
  cbn [stdin stdout files write_allowed write_failure] in Hsave.
  destruct Hsave as (-> & -> & -> & -> & Hsave).
  assert (Hfiles :
    fs1 = fs \/
    exists items0 name0 presentation0 v0 unit_label,
      Return (PyList items) = Return (PyList items0) /\
      name0 <> "" /\ unit_label <> "" /\ 0 < v0 /\
      let text :=
        json_dump
          (PyList (items0 ++ [new_medication name0 presentation0 v0
                                             unit_label])) in
      (allowed default_filepath = true /\
       fs1 = write_file fs default_filepath text) \/
      (exists kept e,
         allowed default_filepath = false /\
         failure default_filepath = Interrupted kept e /\
         fs1 = write_file fs default_filepath (substring 0 kept text))).
  { destruct (allowed default_filepath).
    - destruct Hsave as [_ ->]. right.
      exists items, (strip name), (strip presentation), v, (strip unit_line).
      cbv zeta. auto 10.
    - destruct (failure default_filepath) as [|kept e].
      + destruct Hsave as [_ ->]. now left.
      + destruct Hsave as [_ ->]. right.
        exists items, (strip name), (strip presentation), v, (strip unit_line).
        cbv zeta. repeat split; auto. right. exists kept, e. auto. }
  destruct saved as [[|]|e]; destruct lines; simpl; (split; [reflexivity | exact Hfiles]).
Qed.

End AddMedication.

Lemma example_entry_session (fs : filesystem) (allowed : bool) :
  session parse_example (console example_entry fs allowed)
          "Ketamine " "100 mg/mL vial" ["abc"] "20.0" " mg/mL" "" ["0"] 20.
Proof. repeat split. Defined.

Lemma add_medication_appends_witness :
  add_medication parse_example decode_only_42 dump_placeholder strip_ascii
    (console example_entry empty_disk true)
  = (Return tt,
     {| stdin := ["0"];
        stdout := (entry_transcript parse_example ["abc"]
                   ++ [Printed "Medication 'Ketamine' added successfully.";
                       Prompted press_enter])%list;
        files := write_file empty_disk default_filepath
                   (dump_placeholder
                      (PyList [new_medication "Ketamine" "100 mg/mL vial"
                                              20 "mg/mL"]));
        write_allowed := fun _ => true;
        write_failure := fun _ => OpenRefused |}).
Proof.
  refine (proj1 (add_medication_appends parse_example decode_only_42
                   dump_placeholder strip_ascii
                   (console example_entry empty_disk true)
                   "Ketamine " "100 mg/mL vial" ["abc"] "20.0" " mg/mL" ""
                   ["0"] 20 [] (example_entry_session empty_disk true)
                   _ _ _ _));
    [reflexivity | discriminate | discriminate | reflexivity].
Defined.

Lemma example_entry_session_breaking (fs : filesystem) (kept : nat)
    (e : exn) :
  session parse_example (console_breaking example_entry fs kept e)
          "Ketamine " "100 mg/mL vial" ["abc"] "20.0" " mg/mL" "" ["0"] 20.
Proof. repeat split. Defined.

Lemma add_medication_save_fails_witness :
  add_medication parse_example decode_only_42 dump_placeholder strip_ascii
    (console_breaking example_entry empty_disk 5 IOError)
  = (Return tt,
     {| stdin := ["0"];
        stdout := (entry_transcript parse_example ["abc"]
                   ++ [Printed "Error: Could not save medication 'Ketamine'.";
                       Prompted press_enter])%list;
        files := write_file empty_disk default_filepath "(the ";
        write_allowed := fun _ => false;
        write_failure := fun _ => Interrupted 5 IOError |}).
Proof.
  refine (add_medication_save_fails parse_example decode_only_42
            dump_placeholder strip_ascii
            (console_breaking example_entry empty_disk 5 IOError)
            "Ketamine " "100 mg/mL vial" ["abc"] "20.0" " mg/mL" ""
            ["0"] 20 []
            (example_entry_session_breaking empty_disk 5 IOError)
            _ _ _ _ _);
    [reflexivity | discriminate | discriminate | reflexivity
    | right; exists 5%nat; reflexivity].
Defined.

Lemma add_medication_rejects_blank_witness :
  add_medication parse_example decode_only_42 dump_placeholder strip_ascii
    (console ["  "; "100 mg/mL vial"; "abc"; "20.0"; " mg/mL"; ""; "0"]
             empty_disk true)
  = (Return tt,
     {| stdin := ["0"];
        stdout := (entry_transcript parse_example ["abc"]
                   ++ [Printed "Error: Commercial Name cannot be empty.";
                       Prompted press_enter])%list;
        files := empty_disk;
        write_allowed := fun _ => true;
        write_failure := fun _ => OpenRefused |}).
Proof.
  refine (add_medication_rejects_blank parse_example decode_only_42
            dump_placeholder strip_ascii
            (console ["  "; "100 mg/mL vial"; "abc"; "20.0"; " mg/mL"; ""; "0"]
                     empty_disk true)
            "  " "100 mg/mL vial" ["abc"] "20.0" " mg/mL" ""
            ["0"] 20 (PyList []) _ _ _);
    [repeat split | reflexivity | left; reflexivity].
Defined.

Lemma add_medication_not_a_list_witness :
  add_medication parse_example decode_only_42 dump_placeholder strip_ascii
    (console example_entry (single_file "medications.json" "42") true)
  = (Raise AttributeError,
     {| stdin := [""; "0"];
        stdout := entry_transcript parse_example ["abc"];
        files := single_file "medications.json" "42";
        write_allowed := fun _ => true;
        write_failure := fun _ => OpenRefused |}).
Proof.
  refine (add_medication_not_a_list parse_example decode_only_42
            dump_placeholder strip_ascii
            (console example_entry (single_file "medications.json" "42") true)
            "Ketamine " "100 mg/mL vial" ["abc"] "20.0" " mg/mL" ""
            ["0"] 20 (PyInt 42)
            (example_entry_session (single_file "medications.json" "42") true)
            _ _ _ _);
    [reflexivity | discriminate | discriminate | discriminate].
Defined.

(** * The calculation helpers over binary64 *)

(** ** Signs in the specification of binary64

    The primitive operations are specified by [SpecFloat].  Rounding keeps
    the sign it is given and turns a non-negative mantissa into a number;
    the properties of signs need no more of it.  The bounds on the rounding
    error follow further down. *)

Section SpecFloatFacts.

Local Open Scope Z_scope.

Lemma round_aux_sign (s : bool) (m e : Z) (l : location) :
  sign_or_nan s (binary_round_aux prec emax s m e l).
Proof.
  unfold binary_round_aux.
  destruct (shr_fexp prec emax m e l) as [mrs' e'].
  destruct (shr_fexp prec emax _ e' loc_Exact) as [mrs'' e''].
  destruct (shr_m mrs'') as [|p|p]; [reflexivity| |exact I].
  destruct (e'' <=? emax - prec); reflexivity.
Qed.

Lemma shr_1_nonneg (mrs : shr_record) : 0 <= shr_m mrs -> 0 <= shr_m (shr_1 mrs).
Proof.
  destruct mrs as [m r s]. simpl. intros Hm.
  destruct m as [|[p|p|]|[p|p|]]; simpl; lia.
Qed.

Lemma iter_pos_nonneg (p : positive) :
  forall mrs, 0 <= shr_m mrs -> 0 <= shr_m (iter_pos shr_1 p mrs).
Proof.
  induction p as [p IH|p IH|]; intros mrs Hm; simpl.
  - apply IH, IH, shr_1_nonneg, Hm.
  - apply IH, IH, Hm.
  - apply shr_1_nonneg, Hm.
Qed.

Lemma shr_fexp_nonneg (m e : Z) (l : location) :
  0 <= m -> 0 <= shr_m (fst (shr_fexp prec emax m e l)).
Proof.
  intros Hm. unfold shr_fexp, shr.
  assert (H0 : 0 <= shr_m (shr_record_of_loc m l))
    by (destruct l as [|[]]; exact Hm).
  destruct (fexp prec emax (Zdigits2 m + e) - e) as [|p|p]; simpl; auto.
  now apply iter_pos_nonneg.
Qed.

Lemma round_nearest_even_nonneg (m : Z) (l : location) :
  0 <= m -> 0 <= round_nearest_even m l.
Proof.
  intros Hm. destruct l as [|[]]; simpl; try lia.
  destruct (Z.even m); lia.
Qed.

Lemma round_aux_not_nan (s : bool) (m e : Z) (l : location) :
  0 <= m -> binary_round_aux prec emax s m e l <> S754_nan.
Proof.
  intros Hm. unfold binary_round_aux.
  pose proof (shr_fexp_nonneg m e l Hm) as H1.
  destruct (shr_fexp prec emax m e l) as [mrs' e']. simpl in H1.
  pose proof (shr_fexp_nonneg _ e' loc_Exact
                (round_nearest_even_nonneg _ (loc_of_shr_record mrs') H1)) as H2.
  destruct (shr_fexp prec emax _ e' loc_Exact) as [mrs'' e'']. simpl in H2.
  destruct (shr_m mrs'') as [|p|p]; try discriminate; [|lia].
  destruct (e'' <=? emax - prec); discriminate.
Qed.

Lemma digits2_pos_bounds (m : positive) :
  2 ^ (Zpos (digits2_pos m) - 1) <= Zpos m < 2 ^ Zpos (digits2_pos m).
Proof.
  induction m as [m IH|m IH|]; simpl digits2_pos.
  - rewrite Pos2Z.inj_succ.
    replace (Z.succ (Zpos (digits2_pos m)) - 1) with (Z.succ (Zpos (digits2_pos m) - 1)) by lia.
    rewrite !Z.pow_succ_r by lia. lia.
  - rewrite Pos2Z.inj_succ.
    replace (Z.succ (Zpos (digits2_pos m)) - 1) with (Z.succ (Zpos (digits2_pos m) - 1)) by lia.
    rewrite !Z.pow_succ_r by lia. lia.
  - simpl. lia.
Qed.

Lemma iter_xO (m d : positive) : Zpos (Pos.iter xO m d) = Zpos m * 2 ^ Zpos d.
Proof.
  induction d as [|d IH] using Pos.peano_ind.
  - simpl. lia.
  - rewrite Pos.iter_succ, Pos2Z.inj_succ, Z.pow_succ_r by lia.
    rewrite Pos2Z.inj_xO, IH. lia.
Qed.

(** What validity says about a finite number. *)
Lemma valid_finite (s : bool) (m : positive) (e : Z) :
  valid_binary (S754_finite s m e) = true ->
  Zpos (digits2_pos m) <= 53 /\ -1074 <= e /\
  (-1074 < e -> Zpos (digits2_pos m) = 53).
Proof.
  unfold valid_binary, bounded, canonical_mantissa, fexp, SpecFloat.emin.
  intros H. apply andb_true_iff in H as [H _]. apply Z.eqb_eq in H.
  change prec with 53 in H. change emax with 1024 in H. lia.
Qed.

(** The aligned mantissas of two valid positive numbers compare as the
    numbers do. *)
Lemma aligned_le (mx : positive) (ex : Z) (my : positive) (ey : Z) :
  valid_binary (S754_finite false mx ex) = true ->
  valid_binary (S754_finite false my ey) = true ->
  SFleb (S754_finite false my ey) (S754_finite false mx ex) = true ->
  Zpos (fst (shl_align my ey (Z.min ex ey)))
  <= Zpos (fst (shl_align mx ex (Z.min ex ey))).
Proof.
  intros Vx Vy Hle.
  apply valid_finite in Vx as (Dx & Ex & Nx).
  apply valid_finite in Vy as (Dy & Ey & Ny).
  pose proof (digits2_pos_bounds mx) as Bx.
  pose proof (digits2_pos_bounds my) as By.
  unfold SFleb, SFcompare in Hle.
  destruct (Z.compare_spec ey ex) as [Heq|Hlt|Hgt]; try discriminate.
  - subst ey. rewrite Z.min_id. unfold shl_align. rewrite Z.sub_diag. simpl.
    destruct (Pos.compare_cont Eq my mx) eqn:Hc; try discriminate.
    + apply Pos.compare_eq in Hc. subst. apply Z.le_refl.
    + change (Pos.compare my mx = Lt) in Hc. rewrite Pos.compare_lt_iff in Hc.
      clear - Hc. lia.
  - rewrite Z.min_r by lia. unfold shl_align.
    rewrite Z.sub_diag. simpl fst.
    destruct (ey - ex) as [|p|p] eqn:Hd; try lia.
    simpl fst. rewrite iter_xO.
    assert (Hp : 1 <= Zpos p) by lia.
    assert (H2 : 2 ^ 1 <= 2 ^ Zpos p) by (apply Z.pow_le_mono_r; lia).
    rewrite (Nx ltac:(lia)) in Bx.
    assert (Hy : Zpos my < 2 ^ 53).
    { destruct By as [_ By]. eapply Z.lt_le_trans; [exact By|].
      apply Z.pow_le_mono_r; lia. }
    change (2 ^ (53 - 1)) with 4503599627370496 in Bx.
    change (2 ^ 53) with 9007199254740992 in Hy.
    change (2 ^ 1) with 2 in H2. nia.
Qed.

(** A number with sign [false] is at least zero. *)
Lemma sign_false_nonneg (r : spec_float) :
  sign_or_nan false r -> r <> S754_nan -> SFleb (S754_zero false) r = true.
Proof.
  destruct r as [s|s| |s m e]; simpl; intros Hs Hn; subst;
    solve [reflexivity | now destruct Hn].
Qed.

Lemma sign_false_not_neg (r : spec_float) :
  sign_or_nan false r -> SFltb r (S754_zero false) = false.
Proof. destruct r as [s|s| |s m e]; simpl; intros Hs; subst; reflexivity. Qed.

Lemma div_core_nonneg (m1 : positive) (e1 : Z) (m2 : positive) (e2 : Z) :
  0 <= fst (fst (SFdiv_core_binary prec emax (Zpos m1) e1 (Zpos m2) e2)).
Proof.
  unfold SFdiv_core_binary.
  set (s := _ - _ - _).
  set (m' := match s with Z0 => Zpos m1 | Zpos _ => Z.shiftl (Zpos m1) s | Zneg _ => 0 end).
  assert (Hm : 0 <= m').
  { subst m'. destruct s; try lia. apply Z.shiftl_nonneg. lia. }
  pose proof (Z_div_mod m' (Zpos m2) ltac:(lia)) as Hdiv.
  destruct (Z.div_eucl m' (Zpos m2)) as [q r]. simpl.
  destruct Hdiv as [Heq Hr]. nia.
Qed.

(** Division of finite numbers: the quotient is a number and carries the
    exclusive or of the signs. *)
Lemma div_finite (sx : bool) (mx : positive) (ex : Z)
      (sy : bool) (my : positive) (ey : Z) :
  let q := SF64div (S754_finite sx mx ex) (S754_finite sy my ey) in
  sign_or_nan (xorb sx sy) q /\ q <> S754_nan.
Proof.
  unfold SF64div, SFdiv.
  pose proof (div_core_nonneg mx ex my ey) as Hq.
  destruct (SFdiv_core_binary prec emax (Zpos mx) ex (Zpos my) ey) as [[mz ez] lz].
  simpl in Hq. split; [apply round_aux_sign | now apply round_aux_not_nan].
Qed.

Lemma round_sign (s : bool) (m : positive) (e : Z) :
  sign_or_nan s (binary_round prec emax s m e) /\
  binary_round prec emax s m e <> S754_nan.
Proof.
  unfold binary_round.
  destruct (shl_align m e _) as [mz ez].
  split; [apply round_aux_sign | apply round_aux_not_nan; lia].
Qed.

(** Subtraction of valid non-negative finite numbers, the smaller from the
    larger, is a number that is at least zero. *)
Lemma sub_nonneg (mx : positive) (ex : Z) (my : positive) (ey : Z) :
  valid_binary (S754_finite false mx ex) = true ->
  valid_binary (S754_finite false my ey) = true ->
  SFleb (S754_finite false my ey) (S754_finite false mx ex) = true ->
  SFleb (S754_zero false)
        (SF64sub (S754_finite false mx ex) (S754_finite false my ey)) = true.
Proof.
  intros Vx Vy Hle.
  pose proof (aligned_le mx ex my ey Vx Vy Hle) as Hal.
  unfold SF64sub, SFsub, cond_Zopp.
  set (a := Zpos (fst (shl_align mx ex (Z.min ex ey)))) in *.
  set (b := Zpos (fst (shl_align my ey (Z.min ex ey)))) in *.
  destruct (a - b) as [|p|p] eqn:Hd; try lia; simpl binary_normalize.
  - reflexivity.
  - destruct (round_sign false p (Z.min ex ey)) as [Hs Hn].
    now apply sign_false_nonneg.
Qed.

(** Comparison the other way round. *)
Lemma compare_swap (x y : spec_float) (c : comparison) :
  SFcompare x y = Some c -> SFcompare y x = Some (CompOpp c).
Proof.
  destruct x as [sx|sx| |sx mx ex], y as [sy|sy| |sy my ey]; simpl;
    try discriminate; intros [= <-];
    try (destruct sx; reflexivity); try (destruct sy; reflexivity);
    try (destruct sx, sy; reflexivity).
  destruct sx, sy; try reflexivity;
    rewrite (Z.compare_antisym ex ey);
    destruct (ex ?= ey); simpl; try reflexivity;
    rewrite (Pos.compare_cont_antisym mx my Eq); simpl;
    destruct (Pos.compare_cont Eq mx my); reflexivity.
Qed.

(** ** Rounding to nearest: how far the result is from what was rounded *)

(** The number of digits is fixed by the two powers of two around the
    number. *)
Lemma digits2_pos_unique (m : positive) (n : Z) :
  2 ^ (n - 1) <= Zpos m < 2 ^ n -> Zpos (digits2_pos m) = n.
Proof.
  intros [Hlo Hhi].
  destruct (digits2_pos_bounds m) as [Dlo Dhi].
  set (D := Zpos (digits2_pos m)) in *.
  assert (HD : 0 < D) by (subst D; lia).
  assert (Hn : 0 < n).
  { destruct (Z_lt_le_dec 0 n) as [H|H]; [exact H|].
    assert (n = 0 \/ n < 0) as [->|Hneg] by lia.
    - simpl in Hhi. lia.
    - rewrite Z.pow_neg_r in Hhi by lia. lia. }
  destruct (Z.lt_trichotomy D n) as [Hlt|[Heq|Hgt]]; [exfalso|exact Heq|exfalso].
  - assert (2 ^ D <= 2 ^ (n - 1)) by (apply Z.pow_le_mono_r; lia). lia.
  - assert (2 ^ n <= 2 ^ (D - 1)) by (apply Z.pow_le_mono_r; lia). lia.
Qed.

(** Shifting to the right, with the two bits that remember what fell
    off. *)
Lemma shifted_start (M : Z) :
  0 <= M -> shifted M 1 {| shr_m := M; shr_r := false; shr_s := false |}.
Proof.
  intros HM. split; [exact HM|]. exists 0. simpl.
  repeat split; try lia; try discriminate.
Qed.

Lemma shifted_step (M H : Z) (mrs : shr_record) :
  0 < H -> shifted M H mrs -> shifted M (2 * H) (shr_1 mrs).
Proof.
  intros HH [Hm (rem & HM & Hrem & Hr & Hs)].
  destruct mrs as [m r s]. cbn [shr_m shr_r shr_s] in *.
  assert (Hrs : orb r s = true <-> rem <> 0).
  { rewrite orb_true_iff, Hr, Hs. split.
    - intros [Hge|[Hne _]]; lia.
    - intros Hne. destruct (Z_le_gt_dec H (2 * rem)); [left|right]; lia. }
  unfold shifted.
  destruct m as [|[p|p|]|p]; cbn [shr_1 shr_m shr_r shr_s]; try lia.
  - split; [lia|]. exists rem. cbn [shr_m shr_r shr_s]. rewrite Hrs. repeat split; try lia; try discriminate.
  - split; [lia|]. exists (H + rem). cbn [shr_m shr_r shr_s]. rewrite Hrs. repeat split; try lia; try discriminate.
  - split; [lia|]. exists rem. cbn [shr_m shr_r shr_s]. rewrite Hrs. repeat split; try lia; try discriminate.
  - split; [lia|]. exists (H + rem). cbn [shr_m shr_r shr_s]. rewrite Hrs. repeat split; try lia; try discriminate.
Qed.

Lemma shifted_iter (M : Z) (p : positive) :
  forall H mrs, 0 < H -> shifted M H mrs ->
  shifted M (2 ^ Zpos p * H) (iter_pos shr_1 p mrs).
Proof.
  induction p as [p IH|p IH|]; intros H mrs HH Hs; simpl iter_pos.
  - apply shifted_step in Hs; [|exact HH].
    apply IH in Hs; [|lia].
    assert (Hp : 0 < 2 ^ Zpos p) by (apply Z.pow_pos_nonneg; lia).
    apply IH in Hs; [|nia].
    replace (2 ^ Zpos p~1 * H) with (2 ^ Zpos p * (2 ^ Zpos p * (2 * H))); [exact Hs|].
    replace (Zpos p~1) with (Zpos p + Zpos p + 1) by lia.
    rewrite !Z.pow_add_r by lia. change (2 ^ 1) with 2. ring.
  - assert (Hp : 0 < 2 ^ Zpos p) by (apply Z.pow_pos_nonneg; lia).
    apply IH in Hs; [|exact HH]. apply IH in Hs; [|nia].
    replace (2 ^ Zpos p~0 * H) with (2 ^ Zpos p * (2 ^ Zpos p * H)); [exact Hs|].
    replace (Zpos p~0) with (Zpos p + Zpos p) by lia.
    rewrite Z.pow_add_r by lia. ring.
  - apply shifted_step in Hs; [|exact HH]. exact Hs.
Qed.

(** Rounding to nearest after the shift is off by at most half a unit. *)
Lemma round_nearest_even_error (M H : Z) (mrs : shr_record) :
  0 < H -> shifted M H mrs ->
  let m1 := round_nearest_even (shr_m mrs) (loc_of_shr_record mrs) in
  shr_m mrs <= m1 <= shr_m mrs + 1 /\ 2 * Z.abs (m1 * H - M) <= H.
Proof.
  intros HH [Hm (rem & HM & Hrem & Hr & Hs)].
  destruct mrs as [m r s]. cbn [shr_m shr_r shr_s] in *.
  destruct r, s; cbn [loc_of_shr_record round_nearest_even].
  - assert (H <= 2 * rem) by (now apply Hr). nia.
  - assert (H <= 2 * rem) by (now apply Hr).
    assert (Hn : ~ (2 * rem <> 0 /\ 2 * rem <> H)) by (rewrite <- Hs; discriminate).
    destruct (Z.even m); nia.
  - assert (Hn : ~ H <= 2 * rem) by (rewrite <- Hr; discriminate). nia.
  - assert (Hn : ~ H <= 2 * rem) by (rewrite <- Hr; discriminate).
    assert (Hn' : ~ (2 * rem <> 0 /\ 2 * rem <> H)) by (rewrite <- Hs; discriminate).
    nia.
Qed.

Lemma fexp_eq (z : Z) : fexp prec emax z = Z.max (z - 53) (-1074).
Proof. reflexivity. Qed.

Lemma digits_shifted (m d : positive) :
  Zpos (digits2_pos (Pos.iter xO m d)) = Zpos (digits2_pos m) + Zpos d.
Proof.
  apply digits2_pos_unique.
  assert (Hi : Zpos (Pos.iter xO m d) = Zpos m * 2 ^ Zpos d).
  { induction d as [|d IH] using Pos.peano_ind.
    - simpl. lia.
    - rewrite Pos.iter_succ, Pos2Z.inj_succ, Z.pow_succ_r by lia.
      rewrite Pos2Z.inj_xO, IH. lia. }
  rewrite Hi. destruct (digits2_pos_bounds m) as [Lo Hi'].
  assert (Hd : 0 < 2 ^ Zpos d) by (apply Z.pow_pos_nonneg; lia).
  replace (Zpos (digits2_pos m) + Zpos d - 1)
    with ((Zpos (digits2_pos m) - 1) + Zpos d) by lia.
  rewrite !Z.pow_add_r by lia. nia.
Qed.

(** A mantissa that needs no shift goes through the rounding untouched. *)
Lemma round_aux_exact (m : positive) (e : Z) :
  fexp prec emax (Zpos (digits2_pos m) + e) = e ->
  e <= 971 ->
  binary_round_aux prec emax false (Zpos m) e loc_Exact = S754_finite false m e.
Proof.
  intros Hf He. unfold binary_round_aux, shr_fexp.
  cbn [Zdigits2 shr_record_of_loc]. rewrite Hf, Z.sub_diag.
  cbn [shr shr_m loc_of_shr_record round_nearest_even Zdigits2 shr_record_of_loc].
  rewrite Hf, Z.sub_diag. cbn [shr shr_m].
  change (emax - prec) with 971.
  destruct (Z.leb_spec e 971); [reflexivity | lia].
Qed.

(** A mantissa with [53 + p] digits is shifted by [p] digits and rounded:
    below the largest number the result is finite, and it is off by at
    most half a unit of the last digit kept. *)
Lemma round_aux_rounded (M : positive) (e : Z) (p : positive) :
  Zpos (digits2_pos M) = 53 + Zpos p ->
  -1074 <= e ->
  Zpos M * 2 ^ (e + 1074) <= (2 ^ 53 - 1) * 2 ^ 2045 ->
  exists m' e',
    binary_round_aux prec emax false (Zpos M) e loc_Exact
    = S754_finite false m' e' /\
    e <= e' <= 971 /\
    2 ^ 53 * Z.abs (Zpos m' * 2 ^ (e' - e) - Zpos M) <= Zpos M.
Proof.
  intros HD He Hmax.
  set (K := 2 ^ Zpos p).
  assert (HK : 2 <= K).
  { subst K. change 2 with (2 ^ 1) at 1. apply Z.pow_le_mono_r; lia. }
  (* the size of M *)
  destruct (digits2_pos_bounds M) as [Mlo Mhi]. rewrite HD in Mlo, Mhi.
  replace (53 + Zpos p - 1) with (52 + Zpos p) in Mlo by lia.
  rewrite Z.pow_add_r in Mlo, Mhi by lia. fold K in Mlo, Mhi.
  (* no overflow: e + p <= 971, and at 971 the mantissa does not round up *)
  set (E := 2 ^ (e + 1074)) in *.
  assert (HE : 0 < E) by (apply Z.pow_pos_nonneg; lia).
  assert (Hover : e + Zpos p <= 971 /\
                  (e + Zpos p = 971 -> Zpos M <= (2 ^ 53 - 1) * K)).
  { destruct (Z_le_gt_dec (e + Zpos p) 970) as [Hsmall|Hbig].
    - split; lia.
    - (* 971 <= e + p *)
      assert (Hpow : 2 ^ 2045 * 1 <= K * E /\ (e + Zpos p = 971 -> K * E = 2 ^ 2045)).
      { subst K E. rewrite <- Z.pow_add_r by lia. split.
        - rewrite Z.mul_1_r. apply Z.pow_le_mono_r; lia.
        - intros Heq. f_equal. lia. }
      destruct Hpow as [Hge Heq].
      assert (Hle : K * E <= 2 ^ 2045).
      { (* 2^52 * K * E <= M * E <= (2^53 - 1) * 2^2045 < 2^53 * 2^2045 *)
        destruct (Z_le_gt_dec (K * E) (2 ^ 2045)) as [H|H]; [exact H|exfalso].
        assert (2 * 2 ^ 2045 <= K * E).
        { subst K E. rewrite <- Z.pow_add_r in * by lia.
          assert (2045 < Zpos p + (e + 1074)).
          { destruct (Z_le_gt_dec (Zpos p + (e + 1074)) 2045) as [H'|H']; [|lia].
            assert (2 ^ (Zpos p + (e + 1074)) <= 2 ^ 2045)
              by (apply Z.pow_le_mono_r; lia). lia. }
          change (2 * 2 ^ 2045) with (2 ^ 2046).
          apply Z.pow_le_mono_r; lia. }
        set (B := 2 ^ 2045) in *.
        assert (0 < B) by (subst B; apply Z.pow_pos_nonneg; lia).
        change (2 ^ 52) with 4503599627370496 in Mlo.
        change (2 ^ 53) with 9007199254740992 in Hmax.
        nia. }
      assert (HKE : K * E = 2 ^ 2045) by lia.
      split.
      + destruct (Z_le_gt_dec (e + Zpos p) 971) as [H|H]; [exact H|exfalso].
        assert (2 ^ 2046 <= K * E).
        { subst K E. rewrite <- Z.pow_add_r by lia.
          apply Z.pow_le_mono_r; lia. }
        change (2 ^ 2046) with (2 * 2 ^ 2045) in *. 
        assert (0 < 2 ^ 2045) by (apply Z.pow_pos_nonneg; lia). lia.
      + intros _. set (B := 2 ^ 2045) in *.
        change (2 ^ 53) with 9007199254740992 in *.
        nia. }
  destruct Hover as [Hexp Hcarry].
  (* the first shift *)
  unfold binary_round_aux, shr_fexp.
  cbn [Zdigits2 shr_record_of_loc]. rewrite HD, fexp_eq.
  replace (Z.max (53 + Zpos p + e - 53) (-1074) - e) with (Zpos p) by lia.
  cbn [shr].
  pose proof (shifted_iter (Zpos M) p 1 _ ltac:(lia)
                (shifted_start (Zpos M) ltac:(lia))) as Hsh.
  rewrite Z.mul_1_r in Hsh. fold K in Hsh.
  set (mrs := iter_pos shr_1 p _) in *.
  destruct (round_nearest_even_error (Zpos M) K mrs ltac:(lia) Hsh)
    as [Hm1 Herr].
  destruct Hsh as [Hm (rem & HM & Hrem & _ & _)].
  set (m := shr_m mrs) in *.
  set (m1 := round_nearest_even m (loc_of_shr_record mrs)) in *.
  change (2 ^ 52) with 4503599627370496 in *.
  change (2 ^ 53) with 9007199254740992 in *.
  assert (Hmrange : 4503599627370496 <= m < 9007199254740992) by nia.
  assert (Hm1range : 4503599627370496 <= m1 <= 9007199254740992) by lia.
  destruct m1 as [|q|q] eqn:Hq; try lia.
  cbn [Zdigits2 shr_record_of_loc].
  destruct (Z_lt_le_dec (Zpos q) 9007199254740992) as [Hnc|Hc].
  - (* no carry *)
    rewrite (digits2_pos_unique q 53) by (change (2 ^ (53 - 1)) with 4503599627370496;
      change (2 ^ 53) with 9007199254740992; lia).
    rewrite fexp_eq.
    replace (Z.max (53 + (e + Zpos p) - 53) (-1074) - (e + Zpos p)) with 0 by lia.
    cbn [shr shr_m]. change (emax - prec) with 971.
    destruct (Z.leb_spec (e + Zpos p) 971); [|lia].
    exists q, (e + Zpos p). split; [reflexivity|]. split; [lia|].
    replace (e + Zpos p - e) with (Zpos p) by lia. fold K.
    lia.
  - (* the mantissa was rounded up to the next power of two *)
    assert (Hq2 : q = 9007199254740992%positive) by lia.
    subst q.
    change (Zpos (digits2_pos 9007199254740992)) with 54.
    rewrite fexp_eq.
    replace (Z.max (54 + (e + Zpos p) - 53) (-1074) - (e + Zpos p)) with 1 by lia.
    cbn [shr iter_pos shr_1 shr_m]. change (emax - prec) with 971.
    assert (Hne : e + Zpos p <> 971).
    { intros Heq. specialize (Hcarry Heq). nia. }
    destruct (Z.leb_spec (e + Zpos p + 1) 971); [|lia].
    exists 4503599627370496%positive, (e + Zpos p + 1).
    split; [reflexivity|]. split; [lia|].
    replace (e + Zpos p + 1 - e) with (Zpos p + 1) by lia.
    rewrite Z.pow_add_r by lia. fold K. change (2 ^ 1) with 2.
    nia.
Qed.

(** Rounding a positive integer multiple of a power of two that does not
    exceed the largest number: the result is finite and off by at most the
    fraction [2 ^ -53] of what was rounded.  Values are counted in units of
    [2 ^ -1074]. *)
Lemma binary_round_error (M : positive) (e : Z) :
  -1074 <= e ->
  Zpos M * 2 ^ (e + 1074) <= (2 ^ 53 - 1) * 2 ^ 2045 ->
  exists m' e',
    binary_round prec emax false M e = S754_finite false m' e' /\
    -1074 <= e' <= 971 /\
    2 ^ 53 * Z.abs (Zpos m' * 2 ^ (e' + 1074) - Zpos M * 2 ^ (e + 1074))
    <= Zpos M * 2 ^ (e + 1074).
Proof.
  intros He Hmax.
  set (D := Zpos (digits2_pos M)).
  assert (HD : 0 < D) by (subst D; lia).
  (* the exponent of the result cannot exceed 971 *)
  assert (Hsize : D + e <= 1024).
  { destruct (Z_le_gt_dec (D + e) 1024) as [H|H]; [exact H|exfalso].
    destruct (digits2_pos_bounds M) as [Mlo _]. fold D in Mlo.
    assert (Hp : 2 ^ 2098 <= 2 ^ (D - 1) * 2 ^ (e + 1074)).
    { rewrite <- Z.pow_add_r by lia. apply Z.pow_le_mono_r; lia. }
    assert (0 < 2 ^ (e + 1074)) by (apply Z.pow_pos_nonneg; lia).
    assert (Hlt : (2 ^ 53 - 1) * 2 ^ 2045 < 2 ^ 2098) by reflexivity.
    nia. }
  unfold binary_round. fold D. rewrite fexp_eq.
  set (f := Z.max (D + e - 53) (-1074)).
  assert (Hfl : -1074 <= f <= 971) by (subst f; lia).
  unfold shl_align.
  destruct (f - e) as [|p|d] eqn:Hfe.
  - (* no shift either way *)
    assert (f = e) by lia.
    rewrite round_aux_exact; [|fold D; rewrite fexp_eq; fold f; lia | lia].
    exists M, e. split; [reflexivity|]. split; [lia|].
    assert (0 < 2 ^ (e + 1074)) by (apply Z.pow_pos_nonneg; lia).
    rewrite Z.sub_diag. change (Z.abs 0) with 0. nia.
  - (* the mantissa is too long and is rounded *)
    assert (HDp : D = 53 + Zpos p) by lia.
    destruct (round_aux_rounded M e p HDp He Hmax)
      as (m' & e' & Hr & He' & Herr).
    exists m', e'. split; [exact Hr|]. split; [lia|].
    set (E := 2 ^ (e + 1074)) in *.
    assert (HE : 0 < E) by (apply Z.pow_pos_nonneg; lia).
    replace (e' + 1074) with ((e' - e) + (e + 1074)) by lia.
    rewrite Z.pow_add_r by lia. fold E.
    replace (Zpos m' * (2 ^ (e' - e) * E) - Zpos M * E)
      with ((Zpos m' * 2 ^ (e' - e) - Zpos M) * E) by ring.
    rewrite Z.abs_mul, (Z.abs_eq E) by lia. nia.
  - (* the mantissa is padded to the right: exact *)
    assert (Hf : f + Zpos d = e) by lia.
    rewrite round_aux_exact.
    + exists (Pos.iter xO M d), f. split; [reflexivity|]. split; [lia|].
      rewrite iter_xO.
      replace (e + 1074) with (Zpos d + (f + 1074)) by lia.
      rewrite (Z.pow_add_r 2 (Zpos d) (f + 1074)) by lia.
      replace (Zpos M * 2 ^ Zpos d * 2 ^ (f + 1074)
               - Zpos M * (2 ^ Zpos d * 2 ^ (f + 1074))) with 0 by ring.
      assert (0 < 2 ^ Zpos d) by (apply Z.pow_pos_nonneg; lia).
      assert (0 < 2 ^ (f + 1074)) by (apply Z.pow_pos_nonneg; lia).
      change (Z.abs 0) with 0. rewrite Z.mul_0_r.
      apply Z.lt_le_incl, Z.mul_pos_pos; [lia|].
      now apply Z.mul_pos_pos.
    + rewrite digits_shifted. fold D. rewrite fexp_eq.
      replace (D + Zpos d + f) with (D + e) by lia. reflexivity.
    + lia.
Qed.

Lemma valid_exponent (s : bool) (m : positive) (e : Z) :
  valid_binary (S754_finite s m e) = true -> e <= 971.
Proof.
  unfold valid_binary, bounded. intros H.
  apply andb_true_iff in H as [_ H]. now apply Z.leb_le in H.
Qed.

(** No finite number exceeds the largest one. *)
Lemma valid_units_bound (s : bool) (m : positive) (e : Z) :
  valid_binary (S754_finite s m e) = true ->
  Zpos m * 2 ^ (e + 1074) <= (2 ^ 53 - 1) * 2 ^ 2045.
Proof.
  intros V. pose proof (valid_exponent _ _ _ V) as He.
  apply valid_finite in V as (D & El & _).
  destruct (digits2_pos_bounds m) as [_ Hm].
  assert (Hm' : Zpos m < 2 ^ 53).
  { eapply Z.lt_le_trans; [exact Hm|]. apply Z.pow_le_mono_r; lia. }
  assert (Hp : 2 ^ (e + 1074) <= 2 ^ 2045) by (apply Z.pow_le_mono_r; lia).
  assert (0 < 2 ^ (e + 1074)) by (apply Z.pow_pos_nonneg; lia).
  set (B := 2 ^ 2045) in *. set (E := 2 ^ (e + 1074)) in *.
  change (2 ^ 53) with 9007199254740992 in *. nia.
Qed.

(** Aligning a mantissa to a smaller exponent keeps the value. *)
Lemma shl_align_units (m : positive) (e ez : Z) :
  -1074 <= ez <= e ->
  Zpos (fst (shl_align m e ez)) * 2 ^ (ez + 1074) = Zpos m * 2 ^ (e + 1074).
Proof.
  intros He. unfold shl_align.
  destruct (ez - e) as [|p|p] eqn:Hd; try lia.
  - replace ez with e by lia. reflexivity.
  - cbn [fst]. unfold shift_pos. rewrite iter_xO.
    replace (e + 1074) with (Zpos p + (ez + 1074)) by lia.
    rewrite (Z.pow_add_r 2 (Zpos p) (ez + 1074)) by lia. ring.
Qed.

(** Subtracting a smaller from a larger non-negative finite number: the
    result is a number, and it is off from the exact difference by at most
    the fraction [2 ^ -53] of that difference. *)
Lemma sub_error (mv : positive) (ev : Z) (mx : positive) (ex : Z) :
  valid_binary (S754_finite false mv ev) = true ->
  valid_binary (S754_finite false mx ex) = true ->
  Zpos (fst (shl_align mx ex (Z.min ev ex)))
  <= Zpos (fst (shl_align mv ev (Z.min ev ex))) ->
  let V := SFunits (S754_finite false mv ev) in
  let X := SFunits (S754_finite false mx ex) in
  let r := SF64sub (S754_finite false mv ev) (S754_finite false mx ex) in
  0 < X <= V /\ finite_or_zero r /\
  2 ^ 53 * Z.abs (SFunits r - (V - X)) <= V - X.
Proof.
  intros Vv Vx Hal. cbn [SFunits cond_Zopp].
  pose proof (valid_units_bound _ _ _ Vv) as Hmax.
  apply valid_finite in Vv as (_ & Ev & _).
  apply valid_finite in Vx as (_ & Ex & _).
  set (ez := Z.min ev ex) in *.
  assert (Hez : -1074 <= ez <= ev /\ ez <= ex) by (subst ez; lia).
  pose proof (shl_align_units mv ev ez ltac:(lia)) as Ha.
  pose proof (shl_align_units mx ex ez ltac:(lia)) as Hb.
  unfold SF64sub, SFsub, cond_Zopp. fold ez.
  set (a := Zpos (fst (shl_align mv ev ez))) in *.
  set (b := Zpos (fst (shl_align mx ex ez))) in *.
  set (E := 2 ^ (ez + 1074)) in *.
  assert (HE : 0 < E) by (apply Z.pow_pos_nonneg; lia).
  rewrite <- Ha, <- Hb.
  assert (Hb0 : 0 < b) by (subst b; lia).
  split; [nia|].
  destruct (a - b) as [|p|p] eqn:Hd; try lia; cbn [binary_normalize].
  - split; [exact I|]. cbn [SFunits].
    replace (a * E - b * E) with ((a - b) * E) by ring.
    rewrite Hd. simpl. lia.
  - destruct (binary_round_error p ez ltac:(lia)) as (m' & e' & Hr & He' & Herr).
    { fold E. rewrite <- Hd. rewrite <- Ha in Hmax. nia. }
    rewrite Hr. split; [exact I|]. cbn [SFunits cond_Zopp].
    fold E in Herr.
    replace (a * E - b * E) with (Zpos p * E) by (rewrite <- Hd; ring).
    exact Herr.
Qed.

(** ** Division: how far the quotient is from the exact one *)

Lemma Zdigits2_bounds (z : Z) :
  0 <= z ->
  0 <= Zdigits2 z /\ z < 2 ^ Zdigits2 z /\
  (0 < z -> 2 ^ (Zdigits2 z - 1) <= z).
Proof.
  intros Hz. destruct z as [|p|p]; try lia.
  - simpl. lia.
  - cbn [Zdigits2]. destruct (digits2_pos_bounds p). lia.
Qed.

Lemma Zdigits2_unique (z n : Z) :
  2 ^ (n - 1) <= z < 2 ^ n -> 0 < z -> Zdigits2 z = n.
Proof.
  intros Hb Hz. destruct z as [|p|p]; try lia.
  cbn [Zdigits2]. now apply digits2_pos_unique.
Qed.

(** The mantissa of a shifted record is the quotient by the power of
    two. *)
Lemma shr_1_m (mrs : shr_record) :
  0 <= shr_m mrs -> shr_m (shr_1 mrs) = shr_m mrs / 2.
Proof.
  destruct mrs as [m r s]. cbn [shr_m]. intros Hm.
  destruct m as [|[p|p|]|p]; cbn [shr_1 shr_m]; try lia.
  - reflexivity.
  - apply Z.div_unique with 1; lia.
  - apply Z.div_unique with 0; lia.
  - reflexivity.
Qed.

Lemma shr_1_m_nonneg (mrs : shr_record) :
  0 <= shr_m mrs -> 0 <= shr_m (shr_1 mrs).
Proof.
  intros H. rewrite shr_1_m by exact H. apply Z.div_pos; lia.
Qed.

Lemma iter_shr_m (p : positive) :
  forall mrs, 0 <= shr_m mrs ->
  0 <= shr_m (iter_pos shr_1 p mrs) /\
  shr_m (iter_pos shr_1 p mrs) = shr_m mrs / 2 ^ Zpos p.
Proof.
  induction p as [p IH|p IH|]; intros mrs Hm; cbn [iter_pos].
  - pose proof (shr_1_m_nonneg mrs Hm) as H1.
    destruct (IH _ H1) as [H2 E2]. destruct (IH _ H2) as [H3 E3].
    split; [exact H3|]. rewrite E3, E2, shr_1_m by exact Hm.
    assert (Hp : 0 < 2 ^ Zpos p) by (apply Z.pow_pos_nonneg; lia).
    rewrite !Z.div_div by lia. f_equal.
    replace (Zpos p~1) with (1 + Zpos p + Zpos p) by lia.
    rewrite !Z.pow_add_r by lia. change (2 ^ 1) with 2. ring.
  - destruct (IH _ Hm) as [H2 E2]. destruct (IH _ H2) as [H3 E3].
    split; [exact H3|]. rewrite E3, E2.
    assert (Hp : 0 < 2 ^ Zpos p) by (apply Z.pow_pos_nonneg; lia).
    rewrite !Z.div_div by lia. f_equal.
    replace (Zpos p~0) with (Zpos p + Zpos p) by lia.
    rewrite !Z.pow_add_r by lia. ring.
  - split; [now apply shr_1_m_nonneg | now apply shr_1_m].
Qed.

(** Dropping [n] digits of a number with [d] digits leaves [d - n] digits,
    or nothing. *)
Lemma Zdigits2_div_pow2 (q n : Z) :
  0 <= q -> 0 <= n ->
  Zdigits2 (q / 2 ^ n) = Z.max (Zdigits2 q - n) 0.
Proof.
  intros Hq Hn.
  assert (HP : 0 < 2 ^ n) by (apply Z.pow_pos_nonneg; lia).
  destruct (Zdigits2_bounds q Hq) as (Hd & Hhi & Hlo).
  set (d := Zdigits2 q) in *.
  destruct (Z_le_gt_dec d n) as [Hsmall|Hbig].
  - (* everything is shifted out *)
    assert (Hlt : q < 2 ^ n).
    { eapply Z.lt_le_trans; [exact Hhi|]. apply Z.pow_le_mono_r; lia. }
    rewrite Z.div_small by lia. simpl. lia.
  - assert (Hq0 : 0 < q).
    { destruct (Z.eq_dec q 0) as [->|]; [|lia]. subst d. simpl in Hbig. lia. }
    specialize (Hlo Hq0).
    rewrite Z.max_l by lia.
    assert (E1 : 2 ^ (d - 1) = 2 ^ (d - n - 1) * 2 ^ n).
    { rewrite <- Z.pow_add_r by lia. f_equal. lia. }
    assert (E2 : 2 ^ d = 2 ^ (d - n) * 2 ^ n).
    { rewrite <- Z.pow_add_r by lia. f_equal. lia. }
    assert (Hlo' : 2 ^ (d - n - 1) <= q / 2 ^ n).
    { apply Z.div_le_lower_bound; [lia|]. rewrite Z.mul_comm, <- E1. exact Hlo. }
    assert (Hhi' : q / 2 ^ n < 2 ^ (d - n)).
    { apply Z.div_lt_upper_bound; [lia|]. rewrite Z.mul_comm, <- E2. exact Hhi. }
    apply Zdigits2_unique.
    + split; [exact Hlo' | exact Hhi'].
    + assert (0 < 2 ^ (d - n - 1)) by (apply Z.pow_pos_nonneg; lia). lia.
Qed.

(** Adding one to a number keeps its digits, unless the number was all
    ones. *)
Lemma Zdigits2_succ (m : Z) :
  0 <= m ->
  (m + 1 < 2 ^ Zdigits2 m /\ Zdigits2 (m + 1) = Zdigits2 m) \/
  (m + 1 = 2 ^ Zdigits2 m /\ Zdigits2 (m + 1) = Zdigits2 m + 1).
Proof.
  intros Hm. destruct (Zdigits2_bounds m Hm) as (Hd & Hhi & Hlo).
  set (d := Zdigits2 m) in *.
  destruct (Z_lt_le_dec (m + 1) (2 ^ d)) as [Hlt|Hge]; [left|right].
  - split; [exact Hlt|]. apply Zdigits2_unique; [|lia].
    destruct (Z.eq_dec m 0) as [->|Hne].
    + subst d. simpl in Hlt. lia.
    + specialize (Hlo ltac:(lia)). lia.
  - assert (Heq : m + 1 = 2 ^ d) by lia.
    split; [exact Heq|]. apply Zdigits2_unique; [|lia].
    replace (d + 1 - 1) with d by lia. rewrite Z.pow_add_r by lia.
    change (2 ^ 1) with 2. assert (0 < 2 ^ d) by (apply Z.pow_pos_nonneg; lia).
    lia.
Qed.

Lemma shr_record_of_loc_m (m : Z) (l : location) :
  shr_m (shr_record_of_loc m l) = m.
Proof. now destruct l as [|[]]. Qed.

(** The first of the two shifts of [binary_round_aux]. *)
Lemma first_shift (N D q e : Z) (l : location) :
  0 < D -> 0 <= q ->
  shifted N D (shr_record_of_loc q l) ->
  let n := fexp prec emax (Zdigits2 q + e) - e in
  0 <= n ->
  exists mrs,
    shr_fexp prec emax q e l = (mrs, e + n) /\
    shifted N (2 ^ n * D) mrs /\
    shr_m mrs = q / 2 ^ n.
Proof.
  intros HD Hq Hs n Hn. unfold shr_fexp. fold n.
  destruct n as [|p|p] eqn:En; try lia.
  - exists (shr_record_of_loc q l). cbn [shr].
    rewrite Z.add_0_r, Z.pow_0_r, Z.mul_1_l, Z.div_1_r.
    split; [reflexivity|]. split; [exact Hs | apply shr_record_of_loc_m].
  - exists (iter_pos shr_1 p (shr_record_of_loc q l)). cbn [shr].
    split; [reflexivity|]. split.
    + now apply shifted_iter.
    + pose proof (iter_shr_m p (shr_record_of_loc q l)) as H.
      rewrite shr_record_of_loc_m in H. now apply H.
Qed.

(** Rounding what a division or a shift left behind.  [N / D] is the exact
    mantissa at the exponent [e], and [q] is its integer part with the
    location [l] of the rest.  A finite result is within half a unit of its
    last digit of the exact value. *)
Lemma round_aux_error (N D q e : Z) (l : location) (mq : positive) (eq : Z) :
  0 < D -> 0 <= q ->
  shifted N D (shr_record_of_loc q l) ->
  e <= fexp prec emax (Zdigits2 q + e) ->
  binary_round_aux prec emax false q e l = S754_finite false mq eq ->
  e <= eq /\
  2 * Z.abs (Zpos mq * 2 ^ (eq - e) * D - N) <= 2 ^ (eq - e) * D.
Proof.
  intros HD Hq Hs Hn.
  destruct (first_shift N D q e l HD Hq Hs ltac:(lia)) as (mrs & E1 & Hsh & Hm).
  unfold binary_round_aux. rewrite E1.
  set (n := fexp prec emax (Zdigits2 q + e) - e) in *.
  set (P := 2 ^ n) in *.
  assert (HP : 0 < P) by (subst P; apply Z.pow_pos_nonneg; lia).
  destruct (round_nearest_even_error N (P * D) mrs ltac:(nia) Hsh) as [Hr Herr].
  set (m := shr_m mrs) in *.
  set (m1 := round_nearest_even m (loc_of_shr_record mrs)) in *.
  assert (Hm0 : 0 <= m) by (rewrite Hm; apply Z.div_pos; lia).
  (* the exponent fits the mantissa before it is rounded *)
  assert (HF : fexp prec emax (Zdigits2 m + (e + n)) = e + n).
  { rewrite Hm. subst P. rewrite Zdigits2_div_pow2 by lia.
    subst n. rewrite !fexp_eq in *. lia. }
  (* the second shift *)
  unfold shr_fexp. cbn [shr_record_of_loc].
  assert (Hcases : m1 = m \/ m1 = m + 1) by lia.
  destruct (Zdigits2_succ m Hm0) as [[Hlt Hd]|[Hpow Hd]].
  - (* the digits stay *)
    assert (Hd1 : Zdigits2 m1 = Zdigits2 m) by (destruct Hcases as [->| ->]; auto).
    rewrite Hd1, HF, Z.sub_diag. cbn [shr shr_m].
    destruct m1 as [|p1|p1] eqn:Ep; try discriminate.
    change (emax - prec) with 971.
    destruct (e + n <=? 971); [|discriminate].
    intros [= <- <-]. split; [lia|].
    replace (e + n - e) with n by lia. fold P.
    replace (Zpos p1 * P * D) with (Zpos p1 * (P * D)) by ring. exact Herr.
  - destruct Hcases as [Hsame|Hup].
    + (* not rounded up *)
      rewrite Hsame, HF, Z.sub_diag. cbn [shr shr_m].
      destruct m as [|p1|p1] eqn:Ep; try discriminate.
      change (emax - prec) with 971.
      destruct (e + n <=? 971); [|discriminate].
      intros [= <- <-]. split; [lia|].
      replace (e + n - e) with n by lia. fold P.
      replace (Zpos p1 * P * D) with (Zpos p1 * (P * D)) by ring.
      rewrite <- Hsame. exact Herr.
    + (* rounded up to a power of two *)
      assert (Hd1 : Zdigits2 m1 = Zdigits2 m + 1) by (rewrite Hup; exact Hd).
      assert (Hm1 : m1 = 2 ^ Zdigits2 m) by lia.
      destruct (Zdigits2_bounds m Hm0) as (Hdm & _ & _).
      set (dm := Zdigits2 m) in *.
      rewrite Hd1.
      assert (Hn2 : fexp prec emax (dm + 1 + (e + n)) - (e + n) = 0 \/
                    fexp prec emax (dm + 1 + (e + n)) - (e + n) = 1).
      { rewrite !fexp_eq in *. lia. }
      destruct Hn2 as [-> | ->].
      * cbn [shr shr_m].
        destruct m1 as [|p1|p1] eqn:Ep; try discriminate.
        change (emax - prec) with 971.
        destruct (e + n <=? 971); [|discriminate].
        intros [= <- <-]. split; [lia|].
        replace (e + n - e) with n by lia. fold P.
        replace (Zpos p1 * P * D) with (Zpos p1 * (P * D)) by ring.
        exact Herr.
      * cbn [shr iter_pos].
        destruct (Z.eq_dec dm 0) as [Hz|Hnz].
        { (* one, halved, is nothing *)
          rewrite Hm1, Hz. cbn. discriminate. }
        assert (Hhalf : m1 = 2 * 2 ^ (dm - 1)).
        { rewrite Hm1. replace dm with (1 + (dm - 1)) at 1 by lia.
          rewrite Z.pow_add_r by lia. reflexivity. }
        assert (Hh : 0 < 2 ^ (dm - 1)) by (apply Z.pow_pos_nonneg; lia).
        destruct (2 ^ (dm - 1)) as [|h|h] eqn:Eh; try lia.
        rewrite Hhalf. change (2 * Zpos h) with (Zpos h~0).
        cbn [shr_1 shr_m].
        change (emax - prec) with 971.
        destruct (e + n + 1 <=? 971); [|discriminate].
        intros [= <- <-]. split; [lia|].
        replace (e + n + 1 - e) with (n + 1) by lia.
        rewrite Z.pow_add_r by lia. fold P. change (2 ^ 1) with 2.
        replace (Zpos h * (P * 2) * D) with (2 * Zpos h * (P * D)) by ring.
        rewrite <- Hhalf. lia.
Qed.

(** The location that the division computes from the remainder describes
    the remainder as the two bits of a shifted record do. *)
Lemma new_location_shifted (D q r : Z) :
  0 < D -> 0 <= q -> 0 <= r < D ->
  shifted (q * D + r) D (shr_record_of_loc q (new_location D r)).
Proof.
  intros HD Hq Hr.
  split; [now rewrite shr_record_of_loc_m|].
  exists r. rewrite shr_record_of_loc_m.
  split; [reflexivity|]. split; [exact Hr|].
  pose proof (Zmod_even D) as Hpar.
  pose proof (Z.div_mod D 2 ltac:(lia)) as Hhalf.
  unfold new_location, new_location_even, new_location_odd.
  destruct (Z.even D); destruct (Z.eqb_spec r 0) as [Hz|Hz].
  - cbn [shr_record_of_loc shr_r shr_s].
    split; split; intros H; solve [discriminate | exfalso; lia | lia].
  - destruct (Z.compare_spec (2 * r) D); cbn [shr_record_of_loc shr_r shr_s];
      split; split; intros H0;
      solve [discriminate | reflexivity | exfalso; lia | lia].
  - cbn [shr_record_of_loc shr_r shr_s].
    split; split; intros H; solve [discriminate | exfalso; lia | lia].
  - destruct (Z.compare_spec (2 * r + 1) D); cbn [shr_record_of_loc shr_r shr_s];
      split; split; intros H0;
      solve [discriminate | reflexivity | exfalso; lia | lia].
Qed.

Lemma fexp_monotone (a b : Z) :
  a <= b -> fexp prec emax a <= fexp prec emax b.
Proof. rewrite !fexp_eq. lia. Qed.

(** What the integer division at the heart of [SFdiv] returns: the quotient
    of the dividend, shifted to the left far enough for the quotient to
    fill the precision, with the location of the rest. *)
Lemma div_core_spec (m1 : positive) (e1 : Z) (m2 : positive) (e2 : Z) :
  exists q e' l,
    SFdiv_core_binary prec emax (Zpos m1) e1 (Zpos m2) e2 = (q, e', l) /\
    0 <= q /\
    e' <= e1 - e2 /\ Z.min (-1074) (e1 - e2) <= e' /\
    shifted (Zpos m1 * 2 ^ (e1 - e2 - e')) (Zpos m2) (shr_record_of_loc q l) /\
    e' <= fexp prec emax (Zdigits2 q + e').
Proof.
  unfold SFdiv_core_binary. cbn [Zdigits2].
  set (d1 := Zpos (digits2_pos m1)). set (d2 := Zpos (digits2_pos m2)).
  set (e' := Z.min (fexp prec emax (d1 + e1 - (d2 + e2))) (e1 - e2)).
  remember (e1 - e2 - e') as s eqn:Es.
  assert (Hs : 0 <= s) by (subst s e'; lia).
  set (m' := match s with
             | 0 => Zpos m1
             | Zpos _ => Z.shiftl (Zpos m1) s
             | Zneg _ => 0
             end).
  assert (Hm' : m' = Zpos m1 * 2 ^ s).
  { subst m'. clear Es. destruct s as [|p|p]; try lia.
    now rewrite Z.shiftl_mul_pow2 by lia. }
  pose proof (Z_div_mod m' (Zpos m2) ltac:(lia)) as Hdiv.
  destruct (Z.div_eucl m' (Zpos m2)) as [q r].
  destruct Hdiv as [Heq Hr].
  assert (HS : 0 < 2 ^ s) by (apply Z.pow_pos_nonneg; lia).
  assert (Hq : 0 <= q) by nia.
  exists q, e', (new_location (Zpos m2) r).
  split; [reflexivity|]. split; [exact Hq|].
  split; [subst e'; lia|].
  split; [subst e'; rewrite fexp_eq; lia|].
  split.
  - rewrite <- Es, <- Hm', Heq.
    replace (Zpos m2 * q + r) with (q * Zpos m2 + r) by ring.
    now apply new_location_shifted.
  - (* the quotient has at least [d1 + s - d2] digits *)
    assert (Hdq : d1 + s - d2 <= Zdigits2 q).
    { destruct (Zdigits2_bounds q Hq) as (Hd0 & Hhi & _).
      destruct (Z_le_gt_dec (d1 + s - d2) 0) as [Hsmall|Hbig]; [lia|].
      destruct (digits2_pos_bounds m1) as [Lo1 _]. fold d1 in Lo1.
      destruct (digits2_pos_bounds m2) as [_ Hi2]. fold d2 in Hi2.
      set (k := d1 + s - d2 - 1).
      assert (Hk : 2 ^ k <= q).
      { (* 2^(d1-1) * 2^s <= m' < (q + 1) * 2^d2 *)
        assert (E : 2 ^ (d1 - 1) * 2 ^ s = 2 ^ k * 2 ^ d2).
        { rewrite <- !Z.pow_add_r by (subst k d1 d2; lia).
          f_equal. subst k. lia. }
        assert (H2 : 0 < 2 ^ d2) by (apply Z.pow_pos_nonneg; subst d2; lia).
        assert (Hk0 : 0 < 2 ^ k) by (apply Z.pow_pos_nonneg; subst k; lia).
        assert (Hlt : 2 ^ k * 2 ^ d2 < (q + 1) * 2 ^ d2) by nia.
        apply Z.mul_lt_mono_pos_r in Hlt; lia. }
      destruct (Z_le_gt_dec (Zdigits2 q) k) as [Hle|Hgt]; [exfalso|lia].
      assert (2 ^ Zdigits2 q <= 2 ^ k) by (apply Z.pow_le_mono_r; lia).
      lia. }
    eapply Z.le_trans; [|apply fexp_monotone with (a := d1 + e1 - (d2 + e2)); lia].
    subst e'. lia.
Qed.

(** Division of positive finite numbers: a quotient that is a normal number
    is off from the exact quotient by at most the fraction [2 ^ -53] of
    itself.  With the values [X], [Y] and [Q] of the dividend, the divisor
    and the quotient in units of [2 ^ -1074], the exact quotient is
    [X * 2 ^ 1074 / Y] units, so the error is stated after multiplying by
    [Y]. *)
Lemma div_error (mx : positive) (ex : Z) (my : positive) (ey : Z)
      (mq : positive) (eq : Z) :
  valid_binary (S754_finite false mx ex) = true ->
  valid_binary (S754_finite false my ey) = true ->
  valid_binary (S754_finite false mq eq) = true ->
  SF64div (S754_finite false mx ex) (S754_finite false my ey)
  = S754_finite false mq eq ->
  Zpos (digits2_pos mq) = 53 ->
  let X := SFunits (S754_finite false mx ex) in
  let Y := SFunits (S754_finite false my ey) in
  let Q := SFunits (S754_finite false mq eq) in
  2 ^ 53 * Z.abs (Q * Y - X * 2 ^ 1074) <= Q * Y.
Proof.
  intros Vx Vy Vq Hdiv Hnorm. cbn [SFunits cond_Zopp].
  apply valid_finite in Vx as (_ & Hex & _).
  apply valid_finite in Vy as (_ & Hey & _).
  apply valid_finite in Vq as (_ & Heq & _).
  unfold SF64div, SFdiv in Hdiv.
  destruct (div_core_spec mx ex my ey)
    as (q & e' & l & Ec & Hq & He1 & He2 & Hsh & Hn).
  rewrite Ec in Hdiv. cbn [xorb] in Hdiv.
  apply (round_aux_error _ (Zpos my) q e' l mq eq ltac:(lia) Hq Hsh Hn)
    in Hdiv as [Hee Herr].
  destruct (digits2_pos_bounds mq) as [Hlo _]. rewrite Hnorm in Hlo.
  change (2 ^ (53 - 1)) with 4503599627370496 in Hlo.
  set (s := ex - ey - e') in *.
  set (P := 2 ^ (eq - e')) in *.
  set (S := 2 ^ s) in *.
  set (K := 2 ^ (e' + ey + 2148)).
  assert (HP : 0 < P) by (subst P; apply Z.pow_pos_nonneg; lia).
  assert (HS : 0 < S) by (subst S; apply Z.pow_pos_nonneg; subst s; lia).
  assert (HK : 0 < K) by (subst K; apply Z.pow_pos_nonneg; lia).
  assert (EQ : 2 ^ (eq + 1074) * 2 ^ (ey + 1074) = P * K).
  { subst P K. rewrite <- !Z.pow_add_r by lia. f_equal. lia. }
  assert (EX : 2 ^ (ex + 1074) * 2 ^ 1074 = S * K).
  { subst S K. rewrite <- !Z.pow_add_r by (subst s; lia). f_equal.
    subst s. lia. }
  replace (Zpos mq * 2 ^ (eq + 1074) * (Zpos my * 2 ^ (ey + 1074)))
    with (Zpos mq * P * Zpos my * K)
    by (transitivity (Zpos mq * Zpos my * (P * K));
        [ring | rewrite <- EQ; ring]).
  replace (Zpos mx * 2 ^ (ex + 1074) * 2 ^ 1074)
    with (Zpos mx * S * K)
    by (transitivity (Zpos mx * (S * K)); [ring | rewrite <- EX; ring]).
  replace (Zpos mq * P * Zpos my * K - Zpos mx * S * K)
    with ((Zpos mq * P * Zpos my - Zpos mx * S) * K) by ring.
  rewrite Z.abs_mul, (Z.abs_eq K) by lia.
  set (A := Zpos mq * P * Zpos my) in *.
  set (E := Z.abs (A - Zpos mx * S)) in *.
  assert (HA : 4503599627370496 * (P * Zpos my) <= A) by (subst A; nia).
  change (2 ^ 53) with 9007199254740992.
  assert (H1 : 9007199254740992 * E <= A) by lia.
  nia.
Qed.

End SpecFloatFacts.

(** ** From the primitive operations to their specification *)

Lemma Prim2SF_zero : Prim2SF 0 = S754_zero false.
Proof. reflexivity. Qed.

Lemma Prim2SF_infinity : Prim2SF infinity = S754_infinity false.
Proof. reflexivity. Qed.

Ltac to_spec :=
  repeat progress
    (rewrite ?FloatAxioms.eqb_spec, ?ltb_spec, ?leb_spec, ?add_spec,
       ?sub_spec, ?div_spec, ?Prim2SF_zero in * ).

(** Close a case in which one of the comparisons in the context computes
    to the opposite of what it is assumed to be. *)
Ltac absurd_test :=
  match goal with
  | H : finite_or_zero _ |- _ => solve [destruct H]
  | H : SFltb _ _ = _ |- _ => solve [compute in H; discriminate H]
  | H : SFeqb _ _ = _ |- _ => solve [compute in H; discriminate H]
  | H : SFleb _ _ = _ |- _ => solve [compute in H; discriminate H]
  end.

Lemma finite_spec (x : float) :
  is_finite x = true -> finite_or_zero (Prim2SF x).
Proof.
  unfold is_finite, is_nan, is_infinity.
  rewrite !FloatAxioms.eqb_spec, abs_spec, Prim2SF_infinity.
  destruct (Prim2SF x) as [s|[]| |s m e]; simpl; try discriminate; auto.
Qed.

Lemma positive_nonzero (x : float) :
  PrimFloat.ltb 0 x = true -> PrimFloat.eqb x 0 = false.
Proof.
  to_spec. destruct (Prim2SF x) as [s|[]| |[] m e]; compute; congruence.
Qed.

Lemma negative_nonzero (x : float) :
  PrimFloat.ltb x 0 = true -> PrimFloat.eqb x 0 = false.
Proof.
  to_spec. destruct (Prim2SF x) as [s|[]| |[] m e]; compute; congruence.
Qed.

(** The quotient of two positive numbers is never below zero. *)
Lemma quotient_of_positives (d c : float) :
  PrimFloat.ltb 0 d = true -> PrimFloat.ltb 0 c = true ->
  PrimFloat.ltb (d / c) 0 = false.
Proof.
  to_spec. intros Hd Hc. apply sign_false_not_neg.
  destruct (Prim2SF d) as [sd|[]| |[] md ed]; try discriminate;
    destruct (Prim2SF c) as [sc|[]| |[] mc ec]; try discriminate;
    try exact I; try reflexivity.
  apply (div_finite false md ed false mc ec).
Qed.

(** For finite numbers with a nonzero divisor, a quotient that passes the
    two tests of the infusion helper lies between zero and the final
    volume, the final volume is positive, and the difference is at least
    zero. *)
Lemma quotient_between (d c v : float) :
  is_finite d = true -> is_finite c = true -> is_finite v = true ->
  PrimFloat.eqb c 0 = false -> PrimFloat.eqb v 0 = false ->
  PrimFloat.ltb v (d / c) = false -> PrimFloat.ltb (d / c) 0 = false ->
  PrimFloat.leb 0 (d / c) = true /\ PrimFloat.leb (d / c) v = true /\
  PrimFloat.ltb 0 v = true /\ PrimFloat.leb 0 (v - d / c) = true.
Proof.
  intros Fd Fc Fv.
  apply finite_spec in Fd, Fc, Fv.
  pose proof (Prim2SF_valid v) as Vv.
  pose proof (Prim2SF_valid (d / c)) as Vq.
  to_spec. intros Hc Hv Hgt Hlt.
  assert (Hq : SF64div (Prim2SF d) (Prim2SF c) <> S754_nan /\
               exists s, sign_or_nan s (SF64div (Prim2SF d) (Prim2SF c))).
  { destruct (Prim2SF d) as [sd|sd| |sd md ed]; try contradiction;
      destruct (Prim2SF c) as [sc|sc| |sc mc ec]; try contradiction;
      try discriminate.
    - split; [discriminate | exists (xorb sd sc); reflexivity].
    - destruct (div_finite sd md ed sc mc ec) as [Hs Hn]. eauto. }
  destruct Hq as [Hn [s Hs]].
  destruct (SF64div (Prim2SF d) (Prim2SF c)) as [sq|sq| |sq mq eq];
    try (now destruct Hn);
    destruct (Prim2SF v) as [sv|sv| |sv mv ev]; try contradiction;
    try discriminate.
  - (* the quotient is a zero *)
    destruct sv; try discriminate. repeat split; destruct sq; reflexivity.
  - (* the quotient is an infinity *)
    destruct sq, sv; discriminate.
  - (* the quotient is finite *)
    destruct sq; try discriminate. destruct sv; try discriminate.
    assert (Hle : SFleb (S754_finite false mq eq) (S754_finite false mv ev)
                  = true).
    { unfold SFltb in Hgt. unfold SFleb.
      destruct (SFcompare (S754_finite false mv ev) (S754_finite false mq eq))
        as [cmp|] eqn:Hcmp; [|discriminate].
      rewrite (compare_swap _ _ _ Hcmp). now destruct cmp. }
    repeat split; try reflexivity; try exact Hle.
    now apply sub_nonneg.
Qed.

Lemma finite_spec_inv (x : float) :
  finite_or_zero (Prim2SF x) -> is_finite x = true.
Proof.
  unfold is_finite, is_nan, is_infinity.
  rewrite !FloatAxioms.eqb_spec, abs_spec, Prim2SF_infinity.
  destruct (Prim2SF x) as [s|s| |s m e]; simpl; try contradiction; intros _.
  - now destruct s.
  - unfold SFeqb, SFcompare.
    now destruct s; rewrite Z.compare_refl, Pos.compare_cont_refl.
Qed.

(** The same, by the shape of the numbers: the final volume is a positive
    finite number, and the quotient is a zero or a positive finite number
    that does not exceed it. *)
Lemma quotient_shape (d c v : float) :
  is_finite d = true -> is_finite c = true -> is_finite v = true ->
  PrimFloat.eqb c 0 = false -> PrimFloat.eqb v 0 = false ->
  PrimFloat.ltb v (d / c) = false -> PrimFloat.ltb (d / c) 0 = false ->
  exists mv ev,
    Prim2SF v = S754_finite false mv ev /\
    ((exists s, Prim2SF (d / c) = S754_zero s) \/
     exists mq eq,
       Prim2SF (d / c) = S754_finite false mq eq /\
       SFleb (S754_finite false mq eq) (S754_finite false mv ev) = true).
Proof.
  intros Fd Fc Fv.
  apply finite_spec in Fd, Fc, Fv.
  to_spec. intros Hc Hv Hgt Hlt.
  assert (Hq : SF64div (Prim2SF d) (Prim2SF c) <> S754_nan /\
               exists s, sign_or_nan s (SF64div (Prim2SF d) (Prim2SF c))).
  { destruct (Prim2SF d) as [sd|sd| |sd md ed]; try contradiction;
      destruct (Prim2SF c) as [sc|sc| |sc mc ec]; try contradiction;
      try discriminate.
    - split; [discriminate | exists (xorb sd sc); reflexivity].
    - destruct (div_finite sd md ed sc mc ec) as [Hs Hn]. eauto. }
  destruct Hq as [Hn [s Hs]].
  destruct (SF64div (Prim2SF d) (Prim2SF c)) as [sq|sq| |sq mq eq];
    try (now destruct Hn);
    destruct (Prim2SF v) as [sv|sv| |sv mv ev]; try contradiction;
    try discriminate.
  - (* the quotient is a zero *)
    destruct sv; try (destruct sq; discriminate).
    exists mv, ev. split; [reflexivity|]. left. now exists sq.
  - (* the quotient is an infinity *)
    destruct sq, sv; discriminate.
  - (* the quotient is finite *)
    destruct sq; try discriminate. destruct sv; try discriminate.
    exists mv, ev. split; [reflexivity|]. right. exists mq, eq.
    split; [reflexivity|].
    unfold SFltb in Hgt. unfold SFleb.
    destruct (SFcompare (S754_finite false mv ev) (S754_finite false mq eq))
      as [cmp|] eqn:Hcmp; [|discriminate].
    rewrite (compare_swap _ _ _ Hcmp). now destruct cmp.
Qed.

(** For finite numbers of opposite signs the quotient carries the sign, so
    one that is not below zero has underflowed to zero. *)
Lemma quotient_of_opposite_signs (d c : float) :
  Binary64.opposite_signs d c ->
  is_finite d = true -> is_finite c = true ->
  PrimFloat.ltb (d / c) 0 = false -> PrimFloat.eqb (d / c) 0 = true.
Proof.
  unfold Binary64.opposite_signs. intros Hs Fd Fc.
  apply finite_spec in Fd, Fc. to_spec.
  assert (Hq : SF64div (Prim2SF d) (Prim2SF c) <> S754_nan /\
               sign_or_nan true (SF64div (Prim2SF d) (Prim2SF c))).
  { destruct (Prim2SF d) as [sd|sd| |sd md ed]; try contradiction;
      destruct (Prim2SF c) as [sc|sc| |sc mc ec]; try contradiction;
      try (destruct Hs as [[H1 H2]|[H1 H2]]; discriminate).
    destruct (div_finite sd md ed sc mc ec) as [Hsg Hn].
    split; [exact Hn|].
    destruct sd, sc; try exact Hsg;
      destruct Hs as [[H1 H2]|[H1 H2]]; discriminate. }
  destruct Hq as [Hn Hsg].
  destruct (SF64div (Prim2SF d) (Prim2SF c)) as [sq|sq| |sq mq eq];
    simpl in Hsg; subst; try (now destruct Hn); intros H;
    solve [reflexivity | discriminate].
Qed.

(** Equal finite numbers are the same number. *)
Lemma finite_eqb_same (s1 : bool) (m1 : positive) (e1 : Z)
      (s2 : bool) (m2 : positive) (e2 : Z) :
  SFeqb (S754_finite s1 m1 e1) (S754_finite s2 m2 e2) = true ->
  S754_finite s1 m1 e1 = S754_finite s2 m2 e2.
Proof.
  unfold SFeqb, SFcompare.
  destruct s1, s2; try discriminate;
    destruct (Z.compare_spec e1 e2) as [->|_|_]; try discriminate;
    destruct (Pos.compare_cont Eq m1 m2) eqn:Hm; try discriminate;
    apply Pos.compare_eq in Hm; now subst.
Qed.

(** A finite number minus itself is zero, and adding that zero gives the
    number back. *)
Lemma sub_self (s : bool) (m : positive) (e : Z) :
  SF64sub (S754_finite s m e) (S754_finite s m e) = S754_zero false.
Proof.
  unfold SF64sub, SFsub. now rewrite Z.sub_diag.
Qed.

(** ** The infusion helper over binary64 *)

Lemma binary64_infusion_return_inv (d c v drug diluent conc : float) :
  Binary64.perform_infusion_preparation_calculation d c v
  = Return (drug, diluent, conc) ->
  PrimFloat.eqb c 0 = false /\ PrimFloat.eqb v 0 = false /\
  PrimFloat.ltb v (d / c) = false /\ PrimFloat.ltb (d / c) 0 = false /\
  drug = (d / c)%float /\ diluent = (v - d / c)%float /\
  conc = (d / v)%float.
Proof.
  unfold Binary64.perform_infusion_preparation_calculation.
  destruct (PrimFloat.eqb c 0); [discriminate|].
  destruct (PrimFloat.eqb v 0); [discriminate|].
  destruct (PrimFloat.ltb v (d / c)); [discriminate|].
  destruct (PrimFloat.ltb (d / c) 0); [discriminate|].
  intros [= <- <- <-]. auto 10.
Qed.

Lemma binary64_infusion_passes (d c v : float) :
  PrimFloat.eqb c 0 = false -> PrimFloat.eqb v 0 = false ->
  Binary64.perform_infusion_preparation_calculation d c v
  = if PrimFloat.ltb v (d / c) then Raise (ValueError msg_exceeds)
    else if PrimFloat.ltb (d / c) 0 then Raise (ValueError msg_negative)
    else Return ((d / c)%float, (v - d / c)%float, (d / v)%float).
Proof.
  intros Hc Hv. unfold Binary64.perform_infusion_preparation_calculation.
  now rewrite Hc, Hv.
Qed.

Local Set Warnings "-inexact-float".

(** C5, as claimed: at dose 2, concentration 10 and final volume 0.9 the
    function returns the drug volume [2 / 10] and the diluent volume
    [0.9 - 2 / 10].  Their sum is not the final volume, neither as binary64
    adds them nor exactly: the two returned numbers add up to one unit of
    [2 ^ -54] less than the final volume. *)
Lemma infusion_volumes_differ_by_rounding :
  Binary64.perform_infusion_preparation_calculation 2 10 0.9
  = Return ((2 / 10)%float, (0.9 - 2 / 10)%float, (2 / 0.9)%float) /\
  PrimFloat.eqb (2 / 10 + (0.9 - 2 / 10)) 0.9 = false /\
  (units (2 / 10) + units (0.9 - 2 / 10) = units 0.9 - 2 ^ 1020)%Z.
Proof. repeat split; vm_compute; reflexivity. Qed.

(** The sum is exact at the two ends: when no drug is drawn the diluent is
    the final volume itself, and when the drug fills a finite final volume
    the diluent is zero and drug plus diluent is the final volume. *)
Lemma infusion_diluent_at_the_ends (d c v drug diluent conc : float) :
  Binary64.perform_infusion_preparation_calculation d c v
  = Return (drug, diluent, conc) ->
  drug = (d / c)%float /\
  diluent = (v - drug)%float /\
  (PrimFloat.eqb drug 0 = true -> is_nan v = false -> diluent = v) /\
  (PrimFloat.eqb drug v = true -> is_finite v = true ->
   PrimFloat.eqb diluent 0 = true /\
   PrimFloat.eqb (drug + diluent) v = true).
Proof.
  intros Hret.
  apply binary64_infusion_return_inv in Hret
    as (_ & Hv & _ & _ & -> & -> & _).
  split; [reflexivity|]. split; [reflexivity|]. split.
  - intros Hzero Hnan. apply Prim2SF_inj.
    unfold is_nan in Hnan. apply negb_false_iff in Hnan.
    to_spec.
    destruct (SF64div (Prim2SF d) (Prim2SF c)) as [sq|sq| |sq mq eq];
      try discriminate; try (destruct sq; discriminate).
    destruct (Prim2SF v) as [sv|sv| |sv mv ev];
      try discriminate; try (destruct sv; discriminate); reflexivity.
  - intros Hsame Fv. apply finite_spec in Fv.
    to_spec.
    destruct (Prim2SF v) as [sv|sv| |sv mv ev]; try contradiction;
      try discriminate; try (destruct sv; discriminate).
    destruct (SF64div (Prim2SF d) (Prim2SF c)) as [sq|sq| |sq mq eq];
      try discriminate; try (destruct sq, sv; discriminate).
    apply finite_eqb_same in Hsame. injection Hsame as -> -> ->.
    rewrite sub_self. split; [reflexivity|].
    change (SF64add (S754_finite sv mv ev) (S754_zero false))
      with (S754_finite sv mv ev).
    unfold SFeqb, SFcompare.
    now destruct sv; rewrite Z.compare_refl, Pos.compare_cont_refl.
Qed.

(** C5, amended.  For a finite dose, concentration and final volume,
    whenever the infusion preparation returns, the drug volume and the
    diluent volume are finite, the drug volume lies between zero and the
    final volume, and drug plus diluent equals the final volume up to the
    rounding of one subtraction: the two returned numbers add up to the
    final volume with an error of at most the fraction [2 ^ -53] of the
    exact diluent volume, hence of the final volume.  The values are
    counted in [units] of [2 ^ -1074], in which they are whole numbers. *)
Theorem infusion_volumes_add_up_to_rounding
    (d c v drug diluent conc : float) :
  is_finite d = true -> is_finite c = true -> is_finite v = true ->
  Binary64.perform_infusion_preparation_calculation d c v
  = Return (drug, diluent, conc) ->
  is_finite drug = true /\ is_finite diluent = true /\
  (0 <= units drug <= units v)%Z /\
  (2 ^ 53 * Z.abs (units drug + units diluent - units v)
   <= units v - units drug)%Z /\
  (units drug = 0 -> units diluent = units v)%Z.
Proof.
  intros Fd Fc Fv Hret.
  apply binary64_infusion_return_inv in Hret
    as (Hc & Hv & Hgt & Hlt & -> & -> & _).
  destruct (quotient_shape d c v Fd Fc Fv Hc Hv Hgt Hlt)
    as (mv & ev & Ev & Hq).
  pose proof (Prim2SF_valid v) as Vv.
  pose proof (Prim2SF_valid (d / c)) as Vq.
  assert (HV : (0 < SFunits (S754_finite false mv ev))%Z).
  { cbn [SFunits cond_Zopp]. rewrite Ev in Vv.
    apply valid_finite in Vv as (_ & Hev & _).
    apply Z.mul_pos_pos; [reflexivity|]. apply Z.pow_pos_nonneg; lia. }
  destruct Hq as [[s Eq]|(mq & eq & Eq & Hle)].
  - (* nothing is drawn *)
    assert (Ed : Prim2SF (v - d / c) = S754_finite false mv ev).
    { rewrite sub_spec, Ev, Eq. reflexivity. }
    split; [apply finite_spec_inv; now rewrite Eq|].
    split; [apply finite_spec_inv; now rewrite Ed|].
    unfold units. rewrite Ed, Ev, Eq. cbn [SFunits cond_Zopp] in *.
    repeat split; lia.
  - (* the drug volume is a positive finite number *)
    rewrite Ev in Vv. rewrite Eq in Vq.
    pose proof (aligned_le mv ev mq eq Vv Vq Hle) as Hal.
    destruct (sub_error mv ev mq eq Vv Vq Hal) as (Hrange & Hfin & Herr).
    assert (Ed : Prim2SF (v - d / c)
                 = SF64sub (S754_finite false mv ev)
                           (S754_finite false mq eq)).
    { now rewrite sub_spec, Ev, Eq. }
    split; [apply finite_spec_inv; now rewrite Eq|].
    split; [apply finite_spec_inv; now rewrite Ed|].
    unfold units. rewrite Ed, Ev, Eq.
    set (V := SFunits (S754_finite false mv ev)) in *.
    set (X := SFunits (S754_finite false mq eq)) in *.
    set (R := SFunits (SF64sub _ _)) in *.
    split; [lia|]. split; [|lia].
    replace (X + R - V)%Z with (R - (V - X))%Z by ring. exact Herr.
Qed.

Lemma infusion_volumes_add_up_to_rounding_witness :
  is_finite (2 / 10) = true /\ is_finite (0.9 - 2 / 10) = true /\
  (0 <= units (2 / 10) <= units 0.9)%Z /\
  (2 ^ 53 * Z.abs (units (2 / 10) + units (0.9 - 2 / 10) - units 0.9)
   <= units 0.9 - units (2 / 10))%Z /\
  (units (2 / 10) = 0 -> units (0.9 - 2 / 10) = units 0.9)%Z.
Proof.
  apply (infusion_volumes_add_up_to_rounding 2 10 0.9 _ _ (2 / 0.9));
    reflexivity.
Defined.

(** C8, as claimed: the dose [inf] and the concentration [inf] pass both
    divisor guards, the quotient is NaN, which fails both comparisons, and
    the tuple that is returned holds NaN for the drug and the diluent
    volume; NaN is not at least zero. *)
Lemma infusion_returns_nan :
  PrimFloat.ltb 0 infinity = true /\
  Binary64.perform_infusion_preparation_calculation infinity infinity 5
  = Return (nan, nan, infinity) /\
  PrimFloat.leb 0 nan = false.
Proof. repeat split. Qed.

(** C8, amended.  Whenever the infusion preparation returns for finite
    inputs and a positive dose, the drug volume, the diluent volume and the
    final concentration are all at least zero. *)
Theorem infusion_results_nonneg_finite (d c v drug diluent conc : float) :
  is_finite d = true -> is_finite c = true -> is_finite v = true ->
  PrimFloat.ltb 0 d = true ->
  Binary64.perform_infusion_preparation_calculation d c v
  = Return (drug, diluent, conc) ->
  PrimFloat.leb 0 drug = true /\ PrimFloat.leb 0 diluent = true /\
  PrimFloat.leb 0 conc = true.
Proof.
  intros Fd Fc Fv Hd Hret.
  apply binary64_infusion_return_inv in Hret
    as (Hc & Hv & Hgt & Hlt & -> & -> & ->).
  destruct (quotient_between d c v Fd Fc Fv Hc Hv Hgt Hlt)
    as (Hdrug & _ & Hvpos & Hdil).
  repeat split; [exact Hdrug | exact Hdil |].
  apply finite_spec in Fd, Fv. to_spec.
  destruct (Prim2SF d) as [sd|sd| |[] md ed]; try absurd_test;
    destruct (Prim2SF v) as [sv|sv| |[] mv ev]; try absurd_test.
  destruct (div_finite false md ed false mv ev) as [Hs Hn].
  now apply sign_false_nonneg.
Qed.

Lemma infusion_results_nonneg_finite_witness :
  PrimFloat.leb 0 (100 / 20) = true /\
  PrimFloat.leb 0 (500 - 100 / 20) = true /\
  PrimFloat.leb 0 (100 / 500) = true.
Proof.
  apply (infusion_results_nonneg_finite 100 20 500); reflexivity.
Defined.

(** C10, as claimed: the dose [-1e-300] and the concentration [1e300] have
    opposite signs, the final volume 5 passes the earlier checks, but the
    quotient underflows to [-0.0], which is not below zero: a tuple is
    returned. *)
Lemma infusion_negative_zero_returns :
  Binary64.opposite_signs (-1e-300) 1e300 /\
  PrimFloat.eqb 5 0 = false /\
  PrimFloat.ltb 5 (-1e-300 / 1e300) = false /\
  Binary64.perform_infusion_preparation_calculation (-1e-300) 1e300 5
  = Return (neg_zero, 5%float, (-1e-300 / 5)%float).
Proof. repeat split. left. split; reflexivity. Qed.

(** C10, amended.  When the dose and the concentration have opposite signs,
    the final volume is nonzero and is not exceeded by the quotient
    [dose / concentration], the function raises "Calculated volume of drug
    to draw is negative." exactly when that quotient is below zero, and
    returns the tuple otherwise; for finite inputs the quotient fails to be
    below zero only when it has underflowed to zero. *)
Theorem infusion_negative_quotient (d c v : float) :
  Binary64.opposite_signs d c ->
  PrimFloat.eqb v 0 = false ->
  PrimFloat.ltb v (d / c) = false ->
  (PrimFloat.ltb (d / c) 0 = true ->
   Binary64.perform_infusion_preparation_calculation d c v
   = Raise (ValueError msg_negative)) /\
  (PrimFloat.ltb (d / c) 0 = false ->
   Binary64.perform_infusion_preparation_calculation d c v
   = Return ((d / c)%float, (v - d / c)%float, (d / v)%float)) /\
  (is_finite d = true -> is_finite c = true ->
   PrimFloat.ltb (d / c) 0 = false -> PrimFloat.eqb (d / c) 0 = true).
Proof.
  intros Hs Hv Hgt.
  assert (Hc : PrimFloat.eqb c 0 = false).
  { destruct Hs as [[_ H]|[_ H]];
      [now apply positive_nonzero | now apply negative_nonzero]. }
  rewrite (binary64_infusion_passes d c v Hc Hv), Hgt.
  repeat split.
  - now intros ->.
  - now intros ->.
  - intros Fd Fc. now apply quotient_of_opposite_signs.
Qed.

Lemma infusion_negative_quotient_witness :
  (PrimFloat.ltb (-10 / 5) 0 = true ->
   Binary64.perform_infusion_preparation_calculation (-10) 5 3
   = Raise (ValueError msg_negative)) /\
  (PrimFloat.ltb (-10 / 5) 0 = false ->
   Binary64.perform_infusion_preparation_calculation (-10) 5 3
   = Return ((-10 / 5)%float, (3 - -10 / 5)%float, (-10 / 3)%float)) /\
  (is_finite (-10) = true -> is_finite 5 = true ->
   PrimFloat.ltb (-10 / 5) 0 = false -> PrimFloat.eqb (-10 / 5) 0 = true).
Proof.
  apply (infusion_negative_quotient (-10) 5 3);
    [left; split; reflexivity | reflexivity | reflexivity].
Defined.

(** X6.  With a positive dose, concentration and final volume, which is
    what the interactive caller supplies, only one error is left: the
    function raises the "exceeds" error when the quotient
    [dose / concentration] is greater than the final volume and returns the
    three values otherwise; the zero and the negative error cannot occur. *)
Theorem infusion_positive_inputs (d c v : float) :
  PrimFloat.ltb 0 d = true -> PrimFloat.ltb 0 c = true ->
  PrimFloat.ltb 0 v = true ->
  Binary64.perform_infusion_preparation_calculation d c v
  = if PrimFloat.ltb v (d / c) then Raise (ValueError msg_exceeds)
    else Return ((d / c)%float, (v - d / c)%float, (d / v)%float).
Proof.
  intros Hd Hc Hv.
  rewrite (binary64_infusion_passes d c v
             (positive_nonzero c Hc) (positive_nonzero v Hv)).
  now rewrite (quotient_of_positives d c Hd Hc).
Qed.

Lemma infusion_positive_inputs_witness :
  Binary64.perform_infusion_preparation_calculation 100 10 5
  = if PrimFloat.ltb 5 (100 / 10) then Raise (ValueError msg_exceeds)
    else Return ((100 / 10)%float, (5 - 100 / 10)%float, (100 / 5)%float).
Proof.
  apply (infusion_positive_inputs 100 10 5); reflexivity.
Defined.

(** X8.  For finite inputs of any sign, a returned tuple has a drug volume
    between zero and the final volume, a positive final volume, and a
    diluent volume that is at least zero. *)
Theorem infusion_volumes_in_range (d c v drug diluent conc : float) :
  is_finite d = true -> is_finite c = true -> is_finite v = true ->
  Binary64.perform_infusion_preparation_calculation d c v
  = Return (drug, diluent, conc) ->
  PrimFloat.leb 0 drug = true /\ PrimFloat.leb drug v = true /\
  PrimFloat.ltb 0 v = true /\ PrimFloat.leb 0 diluent = true.
Proof.
  intros Fd Fc Fv Hret.
  apply binary64_infusion_return_inv in Hret
    as (Hc & Hv & Hgt & Hlt & -> & -> & _).
  now apply quotient_between.
Qed.

Lemma infusion_volumes_in_range_witness :
  PrimFloat.leb 0 (-10 / -5) = true /\ PrimFloat.leb (-10 / -5) 3 = true /\
  PrimFloat.ltb 0 3 = true /\ PrimFloat.leb 0 (3 - -10 / -5) = true.
Proof.
  apply (infusion_volumes_in_range (-10) (-5) 3 _ _ (-10 / 3));
    reflexivity.
Defined.

(** ** The rate helper over binary64 *)

Section RoundTrip.

Local Open Scope Z_scope.

(** A positive normal number is a finite number with a full mantissa. *)
Lemma normal_spec (x : float) :
  classify x = PNormal ->
  exists m e,
    Prim2SF x = S754_finite false m e /\ Zpos (digits2_pos m) = 53.
Proof.
  rewrite classify_spec. unfold SF64classify, SFclassify.
  destruct (Prim2SF x) as [[]|[]| |[] m e]; try discriminate.
  - destruct (Z.eqb_spec (Zpos (digits2_pos m)) prec); discriminate.
  - destruct (Z.eqb_spec (Zpos (digits2_pos m)) prec) as [E|E];
      [|discriminate].
    intros _. now exists m, e.
Qed.

Lemma normal_positive (x : float) :
  classify x = PNormal -> PrimFloat.ltb 0 x = true.
Proof.
  intros H. destruct (normal_spec x H) as (m & e & E & _).
  now rewrite ltb_spec, Prim2SF_zero, E.
Qed.

(** A quotient of positive numbers that is a normal number is off from the
    exact quotient by at most the fraction [2 ^ -53] of itself. *)
Lemma normal_quotient_error (a b : float) :
  PrimFloat.ltb 0 a = true -> PrimFloat.ltb 0 b = true ->
  classify (a / b) = PNormal ->
  2 ^ 53 * Z.abs (units (a / b) * units b - units a * 2 ^ 1074)
  <= units (a / b) * units b.
Proof.
  intros Ha Hb Hn.
  destruct (normal_spec _ Hn) as (mq & eq & Eq & Hd).
  pose proof (Prim2SF_valid a) as Va.
  pose proof (Prim2SF_valid b) as Vb.
  pose proof (Prim2SF_valid (a / b)) as Vq.
  rewrite ltb_spec, Prim2SF_zero in Ha, Hb.
  unfold units. rewrite Eq in *. rewrite div_spec in Eq.
  destruct (Prim2SF a) as [sa|sa| |sa ma ea]; try discriminate;
    destruct (Prim2SF b) as [sb|sb| |sb mb eb]; try discriminate.
  destruct sa; [discriminate|]. destruct sb; [discriminate|].
  now apply div_error.
Qed.

(** Dividing by a quotient gives the divisor back, up to the rounding of
    the two divisions. *)
Lemma round_trip_error (V x : float) :
  PrimFloat.ltb 0 V = true -> PrimFloat.ltb 0 x = true ->
  classify (V / x) = PNormal ->
  classify (V / (V / x)) = PNormal ->
  2 ^ 53 * Z.abs (units (V / (V / x)) - units x)
  <= units (V / (V / x)) + units x.
Proof.
  intros HV Hx Hr Hx'.
  pose proof (normal_quotient_error V x HV Hx Hr) as E1.
  pose proof (normal_quotient_error V (V / x) HV (normal_positive _ Hr) Hx')
    as E2.
  assert (HR : 0 < units (V / x)).
  { destruct (normal_spec _ Hr) as (m & e & E & _).
    pose proof (Prim2SF_valid (V / x)) as Vr. rewrite E in Vr.
    apply valid_finite in Vr as (_ & He & _).
    unfold units. rewrite E. cbn [SFunits cond_Zopp].
    apply Z.mul_pos_pos; [reflexivity|]. apply Z.pow_pos_nonneg; lia. }
  set (R := units (V / x)) in *.
  set (X := units x) in *.
  set (X' := units (V / (V / x))) in *.
  set (W := units V * 2 ^ 1074) in *.
  change (2 ^ 53) with 9007199254740992 in *.
  assert (H : 9007199254740992 * Z.abs (X' - X) * R <= (X' + X) * R).
  { replace (Z.abs (X' - X) * R) with (Z.abs (X' * R - R * X)).
    - lia.
    - replace (X' * R - R * X) with ((X' - X) * R) by ring.
      rewrite Z.abs_mul, (Z.abs_eq R) by lia. reflexivity. }
  rewrite <- Z.mul_assoc in H.
  replace (9007199254740992 * (Z.abs (X' - X) * R))
    with (9007199254740992 * Z.abs (X' - X) * R) in H by ring.
  now apply Z.mul_le_mono_pos_r in H.
Qed.

End RoundTrip.

Lemma binary64_rate_from_duration (V D t : float) :
  PrimFloat.eqb t 0 = false ->
  Binary64.perform_rate_duration_calculation V D t "rate_from_duration"
  = Return ((V / t)%float, t, (D / t)%float).
Proof.
  intros Ht. unfold Binary64.perform_rate_duration_calculation. simpl.
  now rewrite Ht.
Qed.

Lemma binary64_duration_from_rate (V D r : float) :
  PrimFloat.eqb r 0 = false -> PrimFloat.eqb V 0 = false ->
  Binary64.perform_rate_duration_calculation V D r "duration_from_rate"
  = Return (r, (V / r)%float, (r * (D / V))%float).
Proof.
  intros Hr HV. unfold Binary64.perform_rate_duration_calculation. simpl.
  now rewrite Hr, HV.
Qed.

(** C6, as claimed: with volume 1, drug mass 100 and duration 49 the rate
    [1 / 49] fed back gives the duration [1 / (1 / 49)], which is not 49;
    and with volume [1e-308] and duration [1e308] the rate underflows to
    zero, so that feeding it back raises instead of returning. *)
Lemma rate_duration_round_trip_fails :
  (Binary64.perform_rate_duration_calculation 1 100 49 "rate_from_duration"
   = Return ((1 / 49)%float, 49%float, (100 / 49)%float) /\
   Binary64.perform_rate_duration_calculation 1 100 (1 / 49)
     "duration_from_rate"
   = Return ((1 / 49)%float, (1 / (1 / 49))%float,
             (1 / 49 * (100 / 1))%float) /\
   PrimFloat.eqb (1 / (1 / 49)) 49 = false) /\
  (PrimFloat.ltb 0 1e-308 = true /\ PrimFloat.ltb 0 1e308 = true /\
   Binary64.perform_rate_duration_calculation 1e-308 100 1e308
     "rate_from_duration"
   = Return (0%float, 1e308%float, (100 / 1e308)%float) /\
   Binary64.perform_rate_duration_calculation 1e-308 100 0
     "duration_from_rate"
   = Raise (ValueError msg_zero_rate)).
Proof. repeat split. Qed.

(** C6, amended.  For a positive volume, drug mass and value [x], mode
    [rate_from_duration] returns the rate [V / x]; fed to mode
    [duration_from_rate], that rate gives back the duration [V / (V / x)]
    as binary64 computes it, unless [V / x] has underflowed to zero, when
    the call raises "Infusion rate cannot be zero.".  The same holds the
    other way round: mode [duration_from_rate] returns the duration
    [V / x], and feeding it to mode [rate_from_duration] gives the rate
    [V / (V / x)], or raises "Duration cannot be zero." when [V / x] is
    zero.  What comes back need not be [x], but it is [x] up to the
    rounding of the two divisions: when [V / x] and [V / (V / x)] are
    positive normal numbers, that is, neither overflows nor falls below
    [2 ^ -1022], the two differ by at most the fraction [2 ^ -53] of their
    sum.  The values are counted in [units] of [2 ^ -1074]. *)
Theorem rate_duration_round_trip (V D x : float) :
  PrimFloat.ltb 0 V = true -> PrimFloat.ltb 0 D = true ->
  PrimFloat.ltb 0 x = true ->
  (Binary64.perform_rate_duration_calculation V D x "rate_from_duration"
   = Return ((V / x)%float, x, (D / x)%float) /\
   Binary64.perform_rate_duration_calculation V D (V / x)
     "duration_from_rate"
   = if PrimFloat.eqb (V / x) 0 then Raise (ValueError msg_zero_rate)
     else Return ((V / x)%float, (V / (V / x))%float,
                  (V / x * (D / V))%float)) /\
  (Binary64.perform_rate_duration_calculation V D x "duration_from_rate"
   = Return (x, (V / x)%float, (x * (D / V))%float) /\
   Binary64.perform_rate_duration_calculation V D (V / x)
     "rate_from_duration"
   = if PrimFloat.eqb (V / x) 0 then Raise (ValueError msg_zero_duration)
     else Return ((V / (V / x))%float, (V / x)%float,
                  (D / (V / x))%float)) /\
  (classify (V / x) = PNormal -> classify (V / (V / x)) = PNormal ->
   (2 ^ 53 * Z.abs (units (V / (V / x)) - units x)
    <= units (V / (V / x)) + units x)%Z).
Proof.
  intros HV HD Hx.
  pose proof (positive_nonzero V HV) as HV0.
  pose proof (positive_nonzero x Hx) as Hx0.
  split; [split|split; [split|]].
  - now apply binary64_rate_from_duration.
  - unfold Binary64.perform_rate_duration_calculation. simpl.
    destruct (PrimFloat.eqb (V / x) 0); [reflexivity | now rewrite HV0].
  - now apply binary64_duration_from_rate.
  - reflexivity.
  - now apply round_trip_error.
Qed.

Lemma rate_duration_round_trip_witness :
  (Binary64.perform_rate_duration_calculation 1 100 49 "rate_from_duration"
   = Return ((1 / 49)%float, 49%float, (100 / 49)%float) /\
   Binary64.perform_rate_duration_calculation 1 100 (1 / 49)
     "duration_from_rate"
   = Return ((1 / 49)%float, (1 / (1 / 49))%float,
             (1 / 49 * (100 / 1))%float)) /\
  (Binary64.perform_rate_duration_calculation 1 100 49 "duration_from_rate"
   = Return (49%float, (1 / 49)%float, (49 * (100 / 1))%float) /\
   Binary64.perform_rate_duration_calculation 1 100 (1 / 49)
     "rate_from_duration"
   = Return ((1 / (1 / 49))%float, (1 / 49)%float,
             (100 / (1 / 49))%float)) /\
  (2 ^ 53 * Z.abs (units (1 / (1 / 49)) - units 49)
   <= units (1 / (1 / 49)) + units 49)%Z.
Proof.
  destruct (rate_duration_round_trip 1 100 49) as (H1 & H2 & H3);
    try reflexivity.
  split; [exact H1|]. split; [exact H2|]. apply H3; reflexivity.
Defined.
